(** * doop-cache: memoised computation and file-cache middleware

    A shallow embedding of [app.cache.function] (the memoisation wrapper)
    and of [app.middleware.express.cacheFile] with its [res.cacheSend]
    capability, together with the properties of their control flow.

    Promises are represented by the way they settle, timers by the
    callback they eventually run, and every interaction with the outside
    (cache store, worker, hooks, filesystem, response) is recorded in an
    event trace so that "how often" and "never" become statements about
    that trace. *)

From Stdlib Require Import ZArith String List Bool Lia.
From stdpp Require Import base option gmap strings.
From Equations Require Import Equations.
From Equations.Prop Require Import Logic.
Import ListNotations.

Local Open Scope Z_scope.
Local Open Scope string_scope.

(** ** JavaScript values *)

Module JS.

(** Numbers as far as this code observes them: finite values (taken at
    integer granularity: attempt counters, millisecond delays), the two
    infinities and NaN. *)
Inductive Num : Type :=
| Fin (z : Z)
| PosInf
| NegInf
| NaN.

(** Values that travel through the cache and the hooks.  [VObj] is an
    object known by its reference, [VError] an [Error] object known by its
    message. *)
Inductive Value : Type :=
| VUndefined
| VNull
| VBool (b : bool)
| VNum (n : Num)
| VStr (s : string)
| VObj (ref : nat)
| VError (msg : string).

(** [a === b] on numbers: NaN differs from everything, itself included. *)
Definition num_eq (a b : Num) : bool :=
  match a, b with
  | Fin x, Fin y => Z.eqb x y
  | PosInf, PosInf => true
  | NegInf, NegInf => true
  | _, _ => false
  end.

(** [a === b] *)
Definition strict_eq (a b : Value) : bool :=
  match a, b with
  | VUndefined, VUndefined => true
  | VNull, VNull => true
  | VBool x, VBool y => Bool.eqb x y
  | VNum x, VNum y => num_eq x y
  | VStr x, VStr y => String.eqb x y
  | VObj x, VObj y => Nat.eqb x y
  | VError x, VError y => String.eqb x y
  | _, _ => false
  end.

(** [a !== b] *)
Definition strict_neq (a b : Value) : bool := negb (strict_eq a b).

(** ToBoolean, as used by [!x], [x && y] and [if (x)]. *)
Definition truthy (v : Value) : bool :=
  match v with
  | VUndefined | VNull => false
  | VBool b => b
  | VNum (Fin z) => negb (Z.eqb z 0)
  | VNum NaN => false
  | VNum _ => true
  | VStr s => negb (String.eqb s "")
  | VObj _ | VError _ => true
  end.

(** The global [isFinite], on the number its argument converts to. *)
Definition isFinite (n : Num) : bool :=
  match n with
  | Fin _ => true
  | _ => false
  end.

(** What calling a synchronous function yields. *)
Inductive Completion (A : Type) : Type :=
| Returns (a : A)
| Raises (e : Value).
Arguments Returns {A} a.
Arguments Raises {A} e.

(** What calling a promise factory yields: a promise that fulfils, a
    promise that rejects, or an exception before any promise exists.  A
    plain (non-promise) return value counts as [Fulfils], which is what
    [Promise.resolve(...)] makes of it. *)
Inductive Async (A : Type) : Type :=
| Fulfils (a : A)
| Rejects (e : Value)
| Throws (e : Value).
Arguments Fulfils {A} a.
Arguments Rejects {A} e.
Arguments Throws {A} e.

(** How the promise handed back to a caller ends up. *)
Inductive Settled : Type :=
| Resolved (v : Value)
| Rejected (e : Value)
| ThrownSync (e : Value)   (* the call itself threw, no promise returned *)
| Pending.                 (* neither resolve nor reject is ever called *)

End JS.

Import JS.

(** ** [app.cache.function]: memoised computation *)

Module Memo.

(** *** The cache store *)

(** An entry of the store: the value and the time-to-live it was set
    with, if any. *)
Definition Entry : Type := (Value * option string)%type.

(** Modelled from the spec: the CacheStore behind [app.cache] (the external
    package [@momsfriendlydevco/cache]), section 6:
    [get(key, notFoundSentinel) -> value|sentinel].  Expiry of entries over
    time is the store's business and is not modelled. *)
Definition cache_get (st : gmap string Entry) (key : string) (sentinel : Value)
  : Value :=
  match st !! key with
  | Some (v, _) => v
  | None => sentinel
  end.

(** Modelled from the spec: [set(key, value, ttl?) -> ()] of the same
    store. *)
Definition cache_set (st : gmap string Entry) (key : string) (v : Value)
  (ttl : option string) : gmap string Entry :=
  <[key := (v, ttl)]> st.

(** *** Observable events *)

Inductive Event : Type :=
| EvGet (key : string) (sentinel : Value)          (* app.cache.get *)
| EvSet (key : string) (v : Value) (ttl : option string) (* app.cache.set *)
| EvWorker (n : nat)                               (* n-th call of worker() *)
| EvOnCached (v : Value)                           (* settings.onCached(settings, v) *)
| EvOnRetry (e : Value) (attempt : Z)              (* settings.onRetry(e, attempt) *)
| EvTimer (delay : Num)                            (* setTimeout(tryResolve, delay) *)
| EvUnhandled (e : Value).                         (* rejection or exception nobody handles *)

(** The surroundings of one call: the store, what has happened so far,
    and the failures of the store: [fault n = Some e] makes the store
    operation that is number [n] in the trace reject with [e]. *)
Record World : Type := mkWorld {
  store : gmap string Entry;
  trace : list Event;
  fault : nat -> option Value
}.

Definition is_store_op (ev : Event) : bool :=
  match ev with EvGet _ _ | EvSet _ _ _ => true | _ => false end.

Definition is_worker (ev : Event) : bool :=
  match ev with EvWorker _ => true | _ => false end.

Definition is_set (ev : Event) : bool :=
  match ev with EvSet _ _ _ => true | _ => false end.

Definition is_timer (ev : Event) : bool :=
  match ev with EvTimer _ => true | _ => false end.

Definition is_onCached (ev : Event) : bool :=
  match ev with EvOnCached _ => true | _ => false end.

(** How many events of a kind a trace holds. *)
Definition count (p : Event -> bool) (t : list Event) : nat :=
  length (List.filter p t).

(** Number of times the worker was invoked. *)
Definition invocations (t : list Event) : nat := count is_worker t.

Definition emit (ev : Event) (w : World) : World :=
  mkWorld (store w) (trace w ++ [ev]) (fault w).

(** Whether the store operation about to be issued fails. *)
Definition next_fault (w : World) : option Value :=
  fault w (count is_store_op (trace w)).

(** [app.cache.get(key, sentinel)] *)
Definition do_get (key : string) (sentinel : Value) (w : World)
  : Completion Value * World :=
  match next_fault w with
  | Some e => (Raises e, emit (EvGet key sentinel) w)
  | None => (Returns (cache_get (store w) key sentinel), emit (EvGet key sentinel) w)
  end.

(** [app.cache.set(key, v, ttl)] *)
Definition do_set (key : string) (v : Value) (ttl : option string) (w : World)
  : Completion unit * World :=
  match next_fault w with
  | Some e => (Raises e, emit (EvSet key v ttl) w)
  | None =>
      (Returns tt,
       mkWorld (cache_set (store w) key v ttl) (trace w ++ [EvSet key v ttl])
               (fault w))
  end.

(** *** Settings *)

(** [retryDelay]: a fixed delay, or a function called as
    [(attempt, settings)].  Delays are carried as the number they convert
    to, which is all [isFinite] and [setTimeout] look at. *)
Inductive RetryDelay : Type :=
| DelayValue (d : Num)
| DelayFn (f : Z -> Completion Num).

(** The hooks close over [settings], their first or last argument in the
    source.  [retry] is an integer, as documented. *)
Record Settings : Type := mkSettings {
  id : option string;
  enabled : Value;
  expiry : string;
  rejectAs : option Value;   (* [None]: the key is absent; [Some VUndefined]: present, undefined *)
  retry : Z;
  retryDelay : RetryDelay;
  onCached : Value -> Completion Value;
  onRetry : Value -> Z -> Completion Value;
  invalidStore : Value
}.

(** The [options] argument: anything that is not a plain object is the id;
    a plain object carries the keys it has. *)
Record OptionsObject : Type := mkOptions {
  opt_id : option string;
  opt_enabled : option Value;
  opt_expiry : option string;
  opt_rejectAs : option Value;
  opt_retry : option Z;
  opt_retryDelay : option RetryDelay;
  opt_onCached : option (Value -> Completion Value);
  opt_onRetry : option (Value -> Z -> Completion Value);
  opt_invalidStore : option Value
}.

Inductive Options : Type :=
| BareId (key : string)
| Config (o : OptionsObject).

(** An options object with no key at all. *)
Definition no_options : OptionsObject :=
  mkOptions None None None None None None None None None.

(** [const settings = {id: ..., enabled: true, ..., ...options}] *)
Definition settings_of (options : Options) : Settings :=
  let o := match options with BareId _ => no_options | Config o => o end in
  {| id := match options with BareId k => Some k | Config o => opt_id o end;
     enabled := default (VBool true) (opt_enabled o);
     expiry := default "1h" (opt_expiry o);
     rejectAs := opt_rejectAs o;
     retry := default 0 (opt_retry o);
     retryDelay := default (DelayValue (Fin 100)) (opt_retryDelay o);
     onCached := default (fun _ => Returns VUndefined) (opt_onCached o);
     onRetry := default (fun _ _ => Returns VUndefined) (opt_onRetry o);
     invalidStore := default (VStr "!!!UNKNOWN!!!") (opt_invalidStore o) |}.

(** The [worker] argument. *)
Inductive Worker : Type :=
| StartedPromise                        (* worker instanceof Promise *)
| NotAFunction                          (* anything else that is not a function *)
| Factory (run : nat -> Async Value).   (* a function; [run n] is its n-th call *)

(** *** The retry loop *)

(** [settings.hasOwnProperty('retry')]: the defaults put the key there. *)
Definition hasOwn_retry (s : Settings) : bool := true.

(** [settings.hasOwnProperty('retry') && settings.hasOwnProperty('retry') > 0]:
    the right operand compares a boolean with 0. *)
Definition retry_guard (s : Settings) : bool :=
  hasOwn_retry s && (Z.b2z (hasOwn_retry s) >? 0).

(** [_.isFunction(settings.retryDelay) ? settings.retryDelay(attempt, settings)
    : settings.retryDelay] *)
Definition useDelay (s : Settings) (attempt : Z) : Completion Num :=
  match retryDelay s with
  | DelayFn f => f attempt
  | DelayValue d => Returns d
  end.

(** The message of the ReferenceError raised by the free identifier in
    [.then(()=> rejectAs)]. *)
Definition rejectAs_not_defined : Value :=
  VError "ReferenceError: rejectAs is not defined".

Definition non_numeric_delay : Value :=
  VStr "Got non-numeric delay for retryDelay".

(** One run of [tryResolve]: it settles the promise, or leaves a timer
    that will run [tryResolve] again. *)
Inductive Step : Type :=
| Settle (o : Settled) (w : World)
| Reschedule (attempt : Z) (w : World).

Definition toString_of_nothing : Value :=
  VError "TypeError: Cannot read properties of undefined (reading 'toString')".

(** [app.log.warn.as(..., e.toString()); reject(e)], as in the [catch]
    around the hooks: on null or undefined [e.toString()] throws in its
    turn, out of the handler, and [reject] is not reached. *)
Definition log_and_reject (e : Value) (w : World) : Step :=
  match e with
  | VUndefined | VNull => Settle Pending (emit (EvUnhandled toString_of_nothing) w)
  | _ => Settle (Rejected e) w
  end.

(** The [.catch(e => ...)] handler of [tryResolve]. *)
Definition on_failure (s : Settings) (key : string) (e : Value)
  (attempt : Z) (w : World) : Step :=
  match rejectAs s with
  | Some fallback =>
      (* return app.cache.set(settings.id, settings.rejectAs).then(()=> rejectAs):
         the write is issued; its continuation raises on the free
         identifier; the promise returned from the handler goes nowhere,
         and neither resolve nor reject is reached *)
      match do_set key fallback None w with
      | (Returns _, w) => Settle Pending (emit (EvUnhandled rejectAs_not_defined) w)
      | (Raises e', w) => Settle Pending (emit (EvUnhandled e') w)
      end
  | None =>
      if retry_guard s then
        let attempt := attempt + 1 in                       (* ++attempt *)
        if attempt >? retry s then Settle (Rejected e) w
        else
          let w := emit (EvOnRetry e attempt) w in
          match onRetry s e attempt with
          | Raises e' => log_and_reject e' w
          | Returns retryValue =>
              if strict_neq retryValue VUndefined
              then Settle (Resolved retryValue) w
              else
                match useDelay s attempt with
                | Raises e' => log_and_reject e' w
                | Returns d =>
                    if negb (isFinite d)
                    then Settle (Rejected non_numeric_delay) w
                    else Reschedule attempt (emit (EvTimer d) w)
                end
          end
      else log_and_reject e w      (* not reached: the guard always holds *)
  end.

(** The body of [tryResolve], run for the [calls]-th invocation of the
    worker.  It runs inside the promise executor exactly when [attempt] is
    still 0; later runs are timer callbacks, where an exception of the
    worker itself has nobody to catch it. *)
Definition tryResolve_body (s : Settings) (run : nat -> Async Value)
  (key : string) (attempt : Z) (calls : nat) (w : World) : Step :=
  let w := emit (EvWorker calls) w in
  match run calls with
  | Fulfils value =>
      (* .then(value => app.cache.set(...).then(()=> value)).then(resolve);
         a failing write lands in the same .catch as a failing worker *)
      match do_set key value (Some (expiry s)) w with
      | (Returns _, w) => Settle (Resolved value) w
      | (Raises e, w) => on_failure s key e attempt w
      end
  | Rejects e => on_failure s key e attempt w
  | Throws e =>
      if Z.eqb attempt 0 then Settle (Rejected e) w
      else Settle Pending (emit (EvUnhandled e) w)
  end.

Lemma on_failure_reschedule s key e attempt w a' w' :
  on_failure s key e attempt w = Reschedule a' w' ->
  a' = attempt + 1 /\ a' <= retry s.
Proof.
  unfold on_failure. intros H.
  destruct (rejectAs s); [destruct (do_set _ _ _ _) as [[] ?]; discriminate |].
  destruct (retry_guard s); [| destruct e; discriminate].
  destruct (Z.gtb_spec (attempt + 1) (retry s)); [discriminate |].
  destruct (onRetry s e (attempt + 1)) as [a | e1];
    [| destruct e1; discriminate].
  destruct (strict_neq a VUndefined); [discriminate |].
  destruct (useDelay s (attempt + 1)) as [a0 | e1];
    [| destruct e1; discriminate].
  destruct (negb (isFinite a0)); [discriminate |].
  injection H as <- _. lia.
Qed.

Lemma tryResolve_body_reschedule s run key attempt calls w a' w' :
  tryResolve_body s run key attempt calls w = Reschedule a' w' ->
  a' = attempt + 1 /\ a' <= retry s.
Proof.
  unfold tryResolve_body. intros H.
  destruct (run calls);
    [destruct (do_set _ _ _ _) as [[] ?]; [discriminate |] |
     | destruct (Z.eqb attempt 0); discriminate];
    eapply on_failure_reschedule; eassumption.
Qed.

(** [tryResolve]: the timer re-enters the body with the next invocation
    of the worker.  The attempt counter only grows and a timer is only set
    while it does not exceed [retry], which bounds the loop. *)
Equations? tryResolve (s : Settings) (run : nat -> Async Value) (key : string)
  (attempt : Z) (calls : nat) (w : World) : Settled * World
  by wf (Z.to_nat (retry s + 1 - attempt)) lt :=
  tryResolve s run key attempt calls w
    with inspect (tryResolve_body s run key attempt calls w) => {
    | exist _ (Settle o w') _ := (o, w');
    | exist _ (Reschedule attempt' w') Hstep :=
        tryResolve s run key attempt' (S calls) w' }.
Proof.
  apply tryResolve_body_reschedule in Hstep. lia.
Qed.

(** *** The wrapper *)

Definition no_id : Value :=
  VError "No ID specified for app.cache.function(id, worker)".
Definition not_a_factory : Value :=
  VError "app.cache.function must be passed a PROMISE FACTORY not an already executing PROMISE".
Definition not_a_function : Value :=
  VError "app.cache.function worker must be a function".

(** [!settings.id] for an id that is undefined or a string. *)
Definition id_missing (i : option string) : bool :=
  match i with
  | None => true
  | Some k => String.eqb k ""
  end.

(** [app.cache.function(options, worker)] *)
Definition cache_function (options : Options) (worker : Worker) (w : World)
  : Settled * World :=
  let settings := settings_of options in
  match id settings with
  | None => (ThrownSync no_id, w)
  | Some key =>
      if id_missing (id settings) then (ThrownSync no_id, w)
      else
        match worker with
        | StartedPromise => (ThrownSync not_a_factory, w)
        | NotAFunction => (ThrownSync not_a_function, w)
        | Factory run =>
            if negb (truthy (enabled settings)) then
              (* return Promise.resolve(worker()) *)
              let w := emit (EvWorker 0) w in
              match run 0%nat with
              | Fulfils v => (Resolved v, w)
              | Rejects e => (Rejected e, w)
              | Throws e => (ThrownSync e, w)
              end
            else
              match do_get key (invalidStore settings) w with
              | (Raises e, w) => (Rejected e, w)
              | (Returns res, w) =>
                  if strict_neq res (invalidStore settings) then
                    (* result found: onCached may replace it *)
                    let w := emit (EvOnCached res) w in
                    match onCached settings res with
                    | Returns output =>
                        (Resolved (if strict_neq output VUndefined
                                   then output else res), w)
                    | Raises e => (Pending, emit (EvUnhandled e) w)
                    end
                  else tryResolve settings run key 0 0%nat w
              end
        end
  end.

(** *** Vocabulary for the properties *)

(** The [i]-th invocation of the worker fails and the loop goes round:
    there is no [rejectAs], a retry is left, [onRetry] returns undefined
    and the delay is finite. *)
Definition goes_round (s : Settings) (run : nat -> Async Value) (i : nat) : Prop :=
  rejectAs s = None /\ Z.of_nat i + 1 <= retry s /\
  exists e d, run i = Rejects e /\
              onRetry s e (Z.of_nat i + 1) = Returns VUndefined /\
              useDelay s (Z.of_nat i + 1) = Returns d /\
              isFinite d = true.

(** The events of one such round. *)
Definition round (i : nat) (e : Value) (d : Num) : list Event :=
  [EvWorker i; EvOnRetry e (Z.of_nat i + 1); EvTimer d].

(** The store answers every operation. *)
Definition healthy (w : World) : Prop := forall n, fault w n = None.

(** The call passes validation, is enabled, and reads [res] under [key]
    from a store in working order. *)
Definition reads (options : Options) (key : string) (w : World) (res : Value) : Prop :=
  healthy w /\
  id (settings_of options) = Some key /\ key <> "" /\
  truthy (enabled (settings_of options)) = true /\
  res = cache_get (store w) key (invalidStore (settings_of options)).

(** A hit: what was read is not the sentinel. *)
Definition hits (options : Options) (key : string) (w : World) (res : Value) : Prop :=
  reads options key w res /\
  strict_neq res (invalidStore (settings_of options)) = true.

(** A miss: the read gave the sentinel back. *)
Definition misses (options : Options) (key : string) (w : World) : Prop :=
  exists res, reads options key w res /\
              strict_neq res (invalidStore (settings_of options)) = false.

End Memo.

(** ** [app.middleware.express.cacheFile]: file cache middleware *)

Module FileCache.

(** *** Content, files and events *)

(** A readable stream: the data it delivers and, if it breaks, the
    message of the [Error] it emits instead of ['end']. *)
Record Readable : Type := mkReadable {
  delivered : string;
  failure : option string
}.

(** What [res.cacheSend] can be handed: a stream, a byte buffer, or any
    other value (strings among them). *)
Inductive Content : Type :=
| CStream (rd : Readable)
| CBuffer (bytes : list Byte.byte)
| CValue (v : Value).

(** What a file holds. *)
Inductive Data : Type :=
| Text (s : string)
| Bytes (b : list Byte.byte).

Inductive Event : Type :=
| EvAccess (p : string)               (* fs.promises.access(p, W_OK) *)
| EvMkdirParent (p : string)          (* fs.promises.mkdir(dirname(p), {recursive}) *)
| EvWriteFile (p : string) (d : Data) (* fs.promises.writeFile(p, d) *)
| EvWriteStream (p : string) (d : Data) (* stream piped into createWriteStream(p) *)
| EvType (t : Value)                  (* res.type(t) *)
| EvSend (c : Content)                (* res.send(c) *)
| EvSendFile (p : string)             (* res.sendFile(p) *)
| EvPipe (s : string)                 (* stream piped into res *)
| EvEnd (msg : option string)         (* res.end() / res.end(e.toString()) *)
| EvSendError (e : Value)             (* res.sendError(e) *)
| EvNext.                             (* next() *)

(** The request as the middleware sees it: [req.cachePath], the disk,
    what happened so far, and the failures of the disk:
    [mkdir_fault p = Some e] makes the creation of the directory of [p]
    reject with [e], [write_fault p = Some e] does so for writing [p]. *)
Record Req : Type := mkReq {
  cachePath : option string;     (* [None] is null *)
  files : gmap string Data;
  out : list Event;
  mkdir_fault : string -> option Value;
  write_fault : string -> option Value
}.

(** The request with other contents; the failures are the disk's own. *)
Definition with_ (r : Req) (cp : option string) (fs : gmap string Data)
  (t : list Event) : Req :=
  mkReq cp fs t (mkdir_fault r) (write_fault r).

Definition is_access (ev : Event) : bool :=
  match ev with EvAccess _ => true | _ => false end.
Definition is_send (ev : Event) : bool :=
  match ev with EvSend _ | EvSendFile _ | EvPipe _ => true | _ => false end.
Definition is_write (ev : Event) : bool :=
  match ev with EvWriteFile _ _ | EvWriteStream _ _ => true | _ => false end.
Definition is_next (ev : Event) : bool :=
  match ev with EvNext => true | _ => false end.
Definition is_sendError (ev : Event) : bool :=
  match ev with EvSendError _ => true | _ => false end.

Definition count (p : Event -> bool) (t : list Event) : nat :=
  length (List.filter p t).

(** *** Promise chains over the request *)

(** A chain link: it runs on the request and fulfils with a value or
    rejects (a thrown exception inside [.then] is a rejection). *)
Definition Chain (A : Type) : Type := Req -> Completion A * Req.

Definition fulfil {A} (a : A) : Chain A := fun r => (Returns a, r).
Definition fail {A} (e : Value) : Chain A := fun r => (Raises e, r).

(** [p.then(f)] *)
Definition andThen {A B} (p : Chain A) (f : A -> Chain B) : Chain B :=
  fun r =>
    match p r with
    | (Returns a, r') => f a r'
    | (Raises e, r') => (Raises e, r')
    end.

(** [p.catch(h)] *)
Definition orCatch {A} (p : Chain A) (h : Value -> Chain A) : Chain A :=
  fun r =>
    match p r with
    | (Returns a, r') => (Returns a, r')
    | (Raises e, r') => h e r'
    end.

Notation "'await' x <- p ;; k" := (andThen p (fun x => k))
  (at level 10, x name, p at level 99, k at level 200).
Notation "'await' ' pat <- p ;; k" :=
  (andThen p (fun x => match x with pat => k end))
  (at level 10, pat pattern, p at level 99, k at level 200).

Definition emit (ev : Event) : Chain unit :=
  fun r => (Returns tt, with_ r (cachePath r) (files r) (out r ++ [ev])).

Definition liftC {A} (c : Completion A) : Chain A :=
  fun r => (c, r).

(** A guard that may itself throw. *)
Definition ifC {A} (c : Completion bool) (t e : Chain A) : Chain A :=
  await b <- liftC c ;; if (b : bool) then t else e.

(** *** Node bindings used by the module *)

Inductive Class : Type := ReadableClass | BufferClass.

(** What a module-level name is bound to: a constructor, or an object
    that is not callable. *)
Inductive Binding : Type :=
| Constructor (c : Class)
| PlainObject.

(** [let Buffer = require('buffer')]: the exports object of the module,
    whose [Buffer] property is the class. *)
Definition Buffer : Binding := PlainObject.

(** [Stream.Readable] with [let Stream = require('stream')] *)
Definition Stream_Readable : Binding := Constructor ReadableClass.

Definition is_a (c : Content) (cls : Class) : bool :=
  match c, cls with
  | CStream _, ReadableClass => true
  | CBuffer _, BufferClass => true
  | _, _ => false
  end.

Definition not_callable : Value :=
  VError "TypeError: Right-hand side of 'instanceof' is not callable".

(** [c instanceof b] *)
Definition instanceof (c : Content) (b : Binding) : Completion bool :=
  match b with
  | Constructor cls => Returns (is_a c cls)
  | PlainObject => Raises not_callable
  end.

(** [typeof c == 'string'] *)
Definition typeof_string (c : Content) : bool :=
  match c with
  | CValue (VStr _) => true
  | _ => false
  end.

(** *** Filesystem and response *)

Definition invalid_path : Value :=
  VError "TypeError [ERR_INVALID_ARG_TYPE]: The path argument must be of type string. Received null".
Definition invalid_data : Value :=
  VError "TypeError [ERR_INVALID_ARG_TYPE]: The data argument must be of type string or Buffer".

Definition data_of (c : Content) : option Data :=
  match c with
  | CValue (VStr s) => Some (Text s)
  | CBuffer b => Some (Bytes b)
  | _ => None
  end.

(** [fs.promises.access(p, fs.constants.W_OK)] followed by the
    [.then]/[.catch] pair that turns it into a flag: a file that is there
    is taken to be writable. *)
Definition fs_exists (p : string) : Chain bool :=
  fun r => (Returns (bool_decide (is_Some (files r !! p))),
            with_ r (cachePath r) (files r) (out r ++ [EvAccess p])).

(** [fs.promises.mkdir(fsPath.dirname(p), {recursive: true})]; directories
    are not part of the disk model. *)
Definition fs_mkdir_parent (p : string) : Chain unit :=
  fun r =>
    match mkdir_fault r p with
    | Some e => (Raises e, r)
    | None => emit (EvMkdirParent p) r
    end.

(** [fs.promises.writeFile(p, c)]: rejects on a null path, on data that
    is neither string nor buffer, and when the disk refuses. *)
Definition fs_writeFile (p : option string) (c : Content) : Chain unit :=
  fun r =>
    match p, data_of c with
    | None, _ => (Raises invalid_path, r)
    | Some _, None => (Raises invalid_data, r)
    | Some p, Some d =>
        match write_fault r p with
        | Some e => (Raises e, r)
        | None =>
            (Returns tt, with_ r (cachePath r) (<[p := d]> (files r))
                           (out r ++ [EvWriteFile p d]))
        end
    end.

(** [rd.pipe(fs.createWriteStream(p))] run to the stream's end or error:
    [createWriteStream] throws on a null path; otherwise what the stream
    delivered is on disk.  An error of the write stream itself, which has
    no listener in the source, is outside the model. *)
Definition pipe_to_file (rd : Readable) (p : option string) : Chain unit :=
  fun r =>
    match p with
    | None => (Raises invalid_path, r)
    | Some p =>
        let r' := with_ r (cachePath r) (<[p := Text (delivered rd)]> (files r))
                        (out r ++ [EvWriteStream p (Text (delivered rd))]) in
        match failure rd with
        | None => (Returns tt, r')        (* 'end' -> resolve() *)
        | Some msg => (Raises (VError msg), r')   (* 'error' -> reject(e) *)
        end
    end.

(** [rd.pipe(res)] with the ['end'] and ['error'] handlers of the disabled
    branch. *)
Definition pipe_to_response (rd : Readable) : Chain unit :=
  await _ <- emit (EvPipe (delivered rd)) ;;
  match failure rd with
  | None => emit (EvEnd None)                              (* res.end(); resolve() *)
  | Some msg =>                                             (* res.end(e.toString()); reject() *)
      await _ <- emit (EvEnd (Some msg)) ;; fail VUndefined
  end.

(** *** Settings *)

Record Request : Type := mkRequest {
  req_method : string;
  req_path : string
}.

(** A setting that is a value, or a function called as [(req, res)]. *)
Inductive Resolver (A : Type) : Type :=
| Static (a : A)
| Dynamic (f : Request -> Async A).
Arguments Static {A} a.
Arguments Dynamic {A} f.

Record Settings : Type := mkSettings {
  path : Resolver string;
  enabled : Resolver Value;
  onCachedFile : string -> Chain unit;
  onCreateFile : string -> Chain unit
}.

Record Options : Type := mkOptions {
  opt_path : option (Resolver string);
  opt_enabled : option (Resolver Value);
  opt_onCachedFile : option (string -> Chain unit);
  opt_onCreateFile : option (string -> Chain unit)
}.

Definition no_path : Value :=
  VError "No path function in app.middleware.express.cacheFile".

(** [let settings = {path: ..., enabled: true, ..., ...options}] *)
Definition settings_of (o : Options) : Settings :=
  {| path := default (Dynamic (fun _ => Throws no_path)) (opt_path o);
     enabled := default (Static (VBool true)) (opt_enabled o);
     onCachedFile := default (fun p => emit (EvSendFile p)) (opt_onCachedFile o);
     onCreateFile := default (fun _ => fulfil tt) (opt_onCreateFile o) |}.

(** Truthiness of the setting itself: a function is an object. *)
Definition setting_truthy (r : Resolver Value) : bool :=
  match r with
  | Static v => truthy v
  | Dynamic _ => true
  end.

(** [typeof x == 'function' ? x(req, res) : x] *)
Definition resolve_setting {A} (x : Resolver A) (req : Request) : Async A :=
  match x with
  | Static a => Fulfils a
  | Dynamic f => f req
  end.

(** The [Promise.all([...])] link: the array is built left to right, so an
    exception of the first resolver keeps the second from being called;
    a rejection of either rejects the link. *)
Definition resolve_both (s : Settings) (req : Request) : Chain (Value * string) :=
  match resolve_setting (enabled s) req with
  | Throws e => fail e
  | Rejects e =>
      match resolve_setting (path s) req with
      | Throws e' => fail e'
      | _ => fail e
      end
  | Fulfils en =>
      match resolve_setting (path s) req with
      | Throws e' => fail e'
      | Rejects e' => fail e'
      | Fulfils p => fulfil (en, p)
      end
  end.

(** *** [res.cacheSend(content, options)] *)

Record SendOptions : Type := mkSendOptions {
  so_enabled : option Value;
  so_type : option Value
}.

Definition unknown_content_type : Value :=
  VError "Unknown content type passed to req.cacheSend() - must be a String|Buffer|Stream.Readable".

Definition the_stream (c : Content) : Readable :=
  match c with
  | CStream rd => rd
  | _ => mkReadable "" None     (* not reached: guarded by instanceof *)
  end.

Definition cacheSend (settings : Settings) (content : Content)
  (options : SendOptions) : Chain unit :=
  fun r =>
    (* let csSettings = {enabled: req.cachePath != null, type: null, ...options} *)
    let cs_enabled := default (VBool (bool_decide (is_Some (cachePath r)))) (so_enabled options) in
    let cs_type := default VNull (so_type options) in
    (await _ <- (if truthy cs_type then emit (EvType cs_type) else fulfil tt) ;;
     ifC (if truthy cs_enabled then instanceof content Stream_Readable else Returns false)
       (* streams *)
       (await _ <- (fun r => pipe_to_file (the_stream content) (cachePath r) r) ;;
        fun r => match cachePath r with
                 | Some p => emit (EvSendFile p) r
                 | None => fail invalid_path r
                 end)
       (ifC (instanceof content Stream_Readable)
          (* streams (disabled) *)
          (pipe_to_response (the_stream content))
          (ifC (if typeof_string content then Returns true else instanceof content Buffer)
             (* strings / buffers *)
             (await _ <- (if setting_truthy (enabled settings)
                    then (fun r => fs_writeFile (cachePath r) content r)
                    else fulfil tt) ;;
              emit (EvSend content))
             (* else *)
             (fail unknown_content_type)))) r.

(** *** The middleware *)

Definition skip_signal : Value := VStr "NEXT".

(** [req.cachePath = v] *)
Definition set_cachePath (v : option string) : Chain unit :=
  fun r => (Returns tt, with_ r v (files r) (out r)).

(** The handler returned by [app.middleware.express.cacheFile(options)],
    run on one request. *)
Definition cacheFile (options : Options) (req : Request) : Chain unit :=
  let settings := settings_of options in
  await _ <- set_cachePath None ;;
  orCatch
    (await '(enabled, path) <- resolve_both settings req ;;
     await path <- (if negb (truthy enabled) then fail skip_signal else fulfil path) ;;
     await exists_ <- fs_exists path ;;
     if (exists_ : bool) then onCachedFile settings path
     else
       await _ <- set_cachePath (Some path) ;;
       await _ <- fs_mkdir_parent path ;;
       await _ <- onCreateFile settings path ;;
       emit EvNext)
    (fun e => if strict_eq e skip_signal then emit EvNext else emit (EvSendError e)).

End FileCache.

(** ** Concrete scenarios *)

Module Scenarios.
Import Memo.

(** No fault ever. *)
Definition no_fault : nat -> option Value := fun _ => None.

Definition empty_world : World := mkWorld ∅ [] no_fault.

(** A store that already holds ['Y'] under ['k']. *)
Definition cached_world : World :=
  mkWorld {[ "k" := (VStr "Y", Some "1h") ]} [] no_fault.

(** A worker whose [n]-th call rejects with the number [n]. *)
Definition always_fails : nat -> Async Value :=
  fun n => Rejects (VNum (Fin (Z.of_nat n))).

(** A worker that rejects twice and then fulfils. *)
Definition fails_twice : nat -> Async Value :=
  fun n => if (n <? 2)%nat then Rejects (VNum (Fin (Z.of_nat n)))
           else Fulfils (VStr "done").

(** [{id: 'k', retry: r}] *)
Definition retry_options (r : Z) : Options :=
  Config (mkOptions (Some "k") None None None (Some r) None None None None).

(** [{id: 'k', rejectAs: 'FALLBACK', retry: 2}] *)
Definition fallback_options : Options :=
  Config (mkOptions (Some "k") None None (Some (VStr "FALLBACK")) (Some 2)
            None None None None).

(** [{id: 'k', onCached: () => 'X'}] *)
Definition onCached_options : Options :=
  Config (mkOptions (Some "k") None None None None None
            (Some (fun _ => Returns (VStr "X"))) None None).

(** [{id: 'k', retry: 2, retryDelay: attempt => undefined}]: the delay
    converts to NaN. *)
Definition bad_delay_options : Options :=
  Config (mkOptions (Some "k") None None None (Some 2)
            (Some (DelayFn (fun _ => Returns NaN))) None None None).

(** A worker that always fulfils with ['v']. *)
Definition always_fulfils : nat -> Async Value :=
  fun _ => Fulfils (VStr "v").

(** A store whose second operation (the first write after the read)
    fails. *)
Definition flaky_world : World :=
  mkWorld ∅ [] (fun n => if (n =? 1)%nat then Some (VError "ECONNRESET") else None).

(** [{id: 'k', retry: 2, onRetry: () => 'GIVE-UP'}] *)
Definition onRetry_options : Options :=
  Config (mkOptions (Some "k") None None None (Some 2) None None
            (Some (fun _ _ => Returns (VStr "GIVE-UP"))) None).

End Scenarios.

Module FileScenarios.
Import FileCache.

Definition get7 : Request := mkRequest "GET" "/api/cached/7".

(** [{path: '/cache/7'}] *)
Definition cache7_options : Options :=
  mkOptions (Some (Static "/cache/7")) None None None.

(** [{path: '/cache/7', enabled: async () => false}] *)
Definition disabled_options : Options :=
  mkOptions (Some (Static "/cache/7"))
    (Some (Dynamic (fun _ => Fulfils (VBool false)))) None None.

(** A disk that never refuses. *)
Definition willing : string -> option Value := fun _ => None.

Definition empty_disk : Req := mkReq None ∅ [] willing willing.

(** A disk that already has the file. *)
Definition disk_with_7 : Req :=
  mkReq None {[ "/cache/7" := Text "old" ]} [] willing willing.

Definition png_bytes : list Byte.byte := [Byte.x89; Byte.x50; Byte.x4e; Byte.x47].

Definition plain_send : SendOptions := mkSendOptions None None.

(** The request as the downstream handler finds it after a miss. *)
Definition staged7 : Req := snd (cacheFile cache7_options get7 empty_disk).

(** The request as the downstream handler finds it when caching is
    switched off for it. *)
Definition skipped7 : Req := snd (cacheFile disabled_options get7 disk_with_7).

End FileScenarios.

(** ** Further vocabulary for [app.cache.function] *)

Module MemoViews.
Import Memo.

Definition is_get (ev : Event) : bool :=
  match ev with EvGet _ _ => true | _ => false end.

Definition is_onRetry (ev : Event) : bool :=
  match ev with EvOnRetry _ _ => true | _ => false end.

(** The call passes validation under [key]. *)
Definition valid (options : Options) (key : string) : Prop :=
  id (settings_of options) = Some key /\ key <> "".

(** What a step leaves behind. *)
Definition world_of (st : Step) : World :=
  match st with
  | Settle _ w => w
  | Reschedule _ w => w
  end.

(** Whether a step leaves a timer. *)
Definition timers_of (st : Step) : nat :=
  match st with
  | Settle _ _ => 0%nat
  | Reschedule _ _ => 1%nat
  end.

(** [w'] is [w] some events later, with the same store failures and with
    no entry changed except possibly the one under [key]. *)
Definition continues (key : string) (w w' : World) (t : list Event) : Prop :=
  trace w' = (trace w ++ t)%list /\
  fault w' = fault w /\
  forall k', k' <> key -> store w' !! k' = store w !! k'.

(** The events of round [i] as the worker and the delay policy determine
    them. *)
Definition round_of (s : Settings) (run : nat -> Async Value) (i : nat)
  : list Event :=
  match run i, useDelay s (Z.of_nat i + 1) with
  | Rejects e, Returns d => round i e d
  | _, _ => []
  end.

(** The events of rounds [0 .. k-1], in order. *)
Fixpoint schedule (s : Settings) (run : nat -> Async Value) (k : nat)
  : list Event :=
  match k with
  | O => []
  | S k' => schedule s run k' ++ round_of s run k'
  end.

(** Scenarios. *)

(** [{id: 'k', enabled: false, retry: 2, rejectAs: 'FALLBACK'}] *)
Definition disabled_options : Options :=
  Config (mkOptions (Some "k") (Some (VBool false)) None
            (Some (VStr "FALLBACK")) (Some 2) None None None None).

(** [{id: 'k', invalidStore: NaN}] *)
Definition nan_options : Options :=
  Config (mkOptions (Some "k") None None None None None None None
            (Some (VNum NaN))).

(** [{id: 'k', retry: 2, onRetry: () => { throw new Error('stop') }}] *)
Definition throwing_onRetry_options : Options :=
  Config (mkOptions (Some "k") None None None (Some 2) None None
            (Some (fun _ _ => Raises (VError "stop"))) None).

(** [{id: 'k', onCached: () => { throw new Error('bad hook') }}] *)
Definition throwing_onCached_options : Options :=
  Config (mkOptions (Some "k") None None None None None
            (Some (fun _ => Raises (VError "bad hook"))) None None).

(** [{id: 'k', retry: 3, retryDelay: attempt => 100 * attempt}] *)
Definition backoff_options : Options :=
  Config (mkOptions (Some "k") None None None (Some 3)
            (Some (DelayFn (fun a => Returns (Fin (100 * a))))) None None None).

(** A store that fails its first operation. *)
Definition down_world : World :=
  mkWorld ∅ [] (fun n => if (n =? 0)%nat then Some (VError "ECONNREFUSED") else None).

(** A store with an entry under another key. *)
Definition other_world : World :=
  mkWorld {[ "other" := (VStr "kept", None) ]} [] (fun _ => None).

(** A worker that throws before returning a promise. *)
Definition throws_at_once : nat -> Async Value :=
  fun _ => Throws (VError "sync").

End MemoViews.

(** ** Further vocabulary for the file cache middleware *)

Module FileViews.
Import FileCache FileScenarios.

(** The actions that end the middleware's part in a request: handing
    over, reporting an error, or serving the cached file. *)
Definition is_terminal (ev : Event) : bool :=
  match ev with EvNext | EvSendError _ | EvSendFile _ => true | _ => false end.

(** What the catch at the end of the chain does with [e]. *)
Definition caught (e : Value) : Event :=
  if strict_eq e skip_signal then EvNext else EvSendError e.



(** Scenarios. *)

(** [{enabled: false}]: no path given. *)
Definition disabled_without_path : Options :=
  mkOptions None (Some (Static (VBool false))) None None.

(** [{path: '/cache/7', enabled: false}] *)
Definition switched_off : Options :=
  mkOptions (Some (Static "/cache/7")) (Some (Static (VBool false))) None None.


(** A disk on which the directory cannot be made. *)
Definition read_only_disk : Req :=
  mkReq None ∅ [] (fun _ => Some (VError "EACCES")) willing.

(** A disk with the path staged that refuses the write. *)
Definition full_disk : Req :=
  mkReq (Some "/cache/7") ∅ [] willing (fun _ => Some (VError "ENOSPC")).

(** The path staged on an empty, willing disk. *)
Definition staged : Req := mkReq (Some "/cache/7") ∅ [] willing willing.



End FileViews.

(** ** [libs/cache.js]: the cache instances of the application *)

Module CacheInit.

(** A [Cache] instance as far as this file looks at it: the [modules] and
    [init] options it was built with, and the id of the module in use.
    The class is the external package [@momsfriendlydevco/cache]: its
    [init()] loads the first of its modules that is available and makes
    it the active one, or fails. *)
Record Instance : Type := mkInstance {
  inst_modules : list string;
  inst_init : bool;
  activeModule : option string      (* [None] before a successful init() *)
}.

(** What was logged on loading: the primary driver and, when there is
    more than one instance, the other ones. *)
Record Loaded : Type := mkLoaded {
  primary : string;
  supplementary : option (list string)
}.

(** The application: [app.caches] (keys in insertion order, module ids
    being names), [app.cache] ([None] is undefined) and the log. *)
Record App : Type := mkApp {
  caches : list (string * Instance);
  cache : option Instance;
  logged : list Loaded
}.

(** [new Cache({...app.config.cache, modules: [id], init: false})] *)
Definition new_Cache (id : string) : Instance := mkInstance [id] false None.

(** The instance after its [init()] has fulfilled. *)
Definition ready (i : Instance) : Instance :=
  mkInstance (inst_modules i) (inst_init i) (head (inst_modules i)).

(** [obj[k] = i]: an existing key keeps its place. *)
Fixpoint assign (k : string) (i : Instance) (cs : list (string * Instance))
  : list (string * Instance) :=
  match cs with
  | [] => [(k, i)]
  | (k', i') :: rest =>
      if String.eqb k' k then (k, i) :: rest else (k', i') :: assign k i rest
  end.

(** [obj[k]] *)
Fixpoint lookup (k : string) (cs : list (string * Instance)) : option Instance :=
  match cs with
  | [] => None
  | (k', i) :: rest => if String.eqb k' k then Some i else lookup k rest
  end.

(** [Promise.all(modules.map(id => { app.caches[id] = new Cache(...);
    return app.caches[id].init() }))], [boot id] being what [init()] of the
    instance for [id] does.  The instance is stored before its [init()]
    is called; an exception of [init()] leaves the [map] and the ids after
    it untouched; of several rejections the first in the list is kept. *)
Fixpoint start_modules (boot : string -> Async unit) (ids : list string)
  (cs : list (string * Instance)) : Async unit * list (string * Instance) :=
  match ids with
  | [] => (Fulfils tt, cs)
  | id :: rest =>
      let cs := assign id (new_Cache id) cs in
      match boot id with
      | Throws e => (Throws e, cs)
      | Fulfils _ => start_modules boot rest (assign id (ready (new_Cache id)) cs)
      | Rejects e =>
          match start_modules boot rest cs with
          | (Throws e', cs') => (Throws e', cs')
          | (_, cs') => (Rejects e, cs')
          end
      end
  end.

Definition no_activeModule : Value :=
  VError "TypeError: Cannot read properties of undefined (reading 'activeModule')".
Definition no_id_of_undefined : Value :=
  VError "TypeError: Cannot read properties of undefined (reading 'id')".

(** The line logged at the end: [_.size(app.caches) > 1] decides whether
    the other keys are listed. *)
Definition loaded_line (a : string) (cs : list (string * Instance)) : Loaded :=
  mkLoaded a
    (if (1 <? length cs)%nat
     then Some (List.filter (fun c => negb (String.eqb c a)) (map fst cs))
     else None).

(** The function exported by [libs/cache.js], for
    [app.config.cache.modules = modules]. *)
Definition cache_init (boot : string -> Async unit) (modules : list string)
  (app : App) : Completion unit * App :=
  (* app.caches = {} *)
  match start_modules boot modules [] with
  | (Throws e, cs) => (Raises e, mkApp cs (cache app) (logged app))
  | (Rejects e, cs) => (Raises e, mkApp cs (cache app) (logged app))
  | (Fulfils _, cs) =>
      (* app.cache = app.caches[app.config.cache.modules[0]] *)
      let first := match modules with
                   | [] => None
                   | id :: _ => lookup id cs
                   end in
      (* app.log.as(..., app.cache.activeModule.id, ...) *)
      match first with
      | None => (Raises no_activeModule, mkApp cs None (logged app))
      | Some inst =>
          match activeModule inst with
          | None => (Raises no_id_of_undefined, mkApp cs (Some inst) (logged app))
          | Some a =>
              (Returns tt,
               mkApp cs (Some inst) (logged app ++ [loaded_line a cs]))
          end
      end
  end.

End CacheInit.

(** ** [cache.doop]: wiring of the route cache *)

Module Bootstrap.
Import CacheInit.

(** The backend while it starts: the application, the events listened to
    on [app.cache], whether [app.middleware.express.cache] has been
    assigned, and whether the exit handler is in place. *)
Record Backend : Type := mkBackend {
  app : App;
  listeners : list string;
  route_cache : bool;
  exit_hook : bool
}.

(** The events hooked on [app.cache], in the order of the source. *)
Definition route_events : list string :=
  ["routeCacheHashError"; "routeCacheEtag"; "routeCacheExisting";
   "routeCacheFresh"; "routeCacheInvalidate"].

Definition no_on_of_undefined : Value :=
  VError "TypeError: Cannot read properties of undefined (reading 'on')".

(** The chain of [cache.doop]: load the caches, hook the events, assign
    the middleware and run its [setup] ([setup] being how that call
    ends), register the exit handler.  A link that rejects keeps the
    later ones from running. *)
Definition start (boot : string -> Async unit) (modules : list string)
  (setup : Completion unit) (b : Backend) : Completion unit * Backend :=
  match cache_init boot modules (app b) with
  | (Raises e, a) => (Raises e, mkBackend a (listeners b) (route_cache b) (exit_hook b))
  | (Returns _, a) =>
      match cache a with
      | None =>
          (Raises no_on_of_undefined,
           mkBackend a (listeners b) (route_cache b) (exit_hook b))
      | Some _ =>
          let hooked := (listeners b ++ route_events)%list in
          match setup with
          | Raises e => (Raises e, mkBackend a hooked true (exit_hook b))
          | Returns _ => (Returns tt, mkBackend a hooked true true)
          end
      end
  end.

(** Scenarios. *)

(** Every module loads. *)
Definition all_load : string -> Async unit := fun _ => Fulfils tt.

(** Redis is not reachable. *)
Definition redis_down : string -> Async unit :=
  fun id => if String.eqb id "redis" then Rejects (VError "ECONNREFUSED")
            else Fulfils tt.

(** An application that has not been set up. *)
Definition blank_app : App := mkApp [] None [].

Definition blank_backend : Backend := mkBackend blank_app [] false false.

End Bootstrap.

(** ** Properties of [app.cache.function] *)

Module MemoFacts.
Import Memo.

Lemma strict_neq_undefined_true v :
  strict_neq v VUndefined = true <-> v <> VUndefined.
Proof.
  unfold strict_neq. split.
  - intros H ->. discriminate.
  - destruct v; simpl; congruence.
Qed.

Lemma count_app p (t1 t2 : list Event) :
  count p (t1 ++ t2) = (count p t1 + count p t2)%nat.
Proof. unfold count. rewrite List.filter_app, List.length_app. reflexivity. Qed.

Lemma retry_guard_holds s : retry_guard s = true.
Proof. reflexivity. Qed.

Lemma do_get_healthy key sentinel w :
  healthy w ->
  do_get key sentinel w =
  (Returns (cache_get (store w) key sentinel), emit (EvGet key sentinel) w).
Proof. intros H. unfold do_get, next_fault. rewrite H. reflexivity. Qed.

Lemma do_set_healthy key v ttl w :
  healthy w ->
  do_set key v ttl w =
  (Returns tt,
   mkWorld (cache_set (store w) key v ttl) (trace w ++ [EvSet key v ttl])
           (fault w)).
Proof. intros H. unfold do_set, next_fault. rewrite H. reflexivity. Qed.

Lemma healthy_emit ev w : healthy w -> healthy (emit ev w).
Proof. intros H n. apply H. Qed.

Lemma healthy_trace w t :
  healthy w -> healthy (mkWorld (store w) (trace w ++ t) (fault w)).
Proof. intros H n. apply H. Qed.

(** [tryResolve] is its body, followed by the next run when a timer was
    left. *)
Lemma tryResolve_unfold_body s run key attempt calls w :
  tryResolve s run key attempt calls w =
  match tryResolve_body s run key attempt calls w with
  | Settle o w' => (o, w')
  | Reschedule attempt' w' => tryResolve s run key attempt' (S calls) w'
  end.
Proof.
  rewrite tryResolve_equation_1.
  destruct (inspect (tryResolve_body s run key attempt calls w)) as [st Hst].
  destruct st.
  - rewrite tryResolve_clause_1_equation_1, Hst. reflexivity.
  - rewrite tryResolve_clause_1_equation_2, Hst. reflexivity.
Qed.

Section Loop.
Variables (s : Settings) (run : nat -> Async Value) (key : string).

Lemma body_goes_round i w :
  goes_round s run i ->
  exists e d,
    tryResolve_body s run key (Z.of_nat i) i w =
    Reschedule (Z.of_nat i + 1)
      (mkWorld (store w) (trace w ++ round i e d) (fault w)).
Proof.
  intros (Hrej & Hle & e & d & Hrun & Hhook & Hdelay & Hfin).
  exists e, d. unfold tryResolve_body, on_failure.
  rewrite Hrun, Hrej, retry_guard_holds.
  destruct (Z.gtb_spec (Z.of_nat i + 1) (retry s)) as [Hgt | _]; [lia |].
  rewrite Hhook. simpl strict_neq. cbv iota.
  rewrite Hdelay, Hfin. simpl negb. cbv iota.
  unfold emit, round. simpl. repeat rewrite <- app_assoc. reflexivity.
Qed.

(** [k] rounds in a row, starting with invocation [c]: the store is left
    alone, the worker ran [k] times and [k] timers were set. *)
Lemma tryResolve_rounds k : forall c w,
  (forall i, (c <= i < c + k)%nat -> goes_round s run i) ->
  exists t,
    tryResolve s run key (Z.of_nat c) c w =
    tryResolve s run key (Z.of_nat (c + k)) (c + k)
      (mkWorld (store w) (trace w ++ t) (fault w)) /\
    invocations t = k /\ count is_timer t = k /\
    count is_set t = 0%nat /\ count is_onCached t = 0%nat.
Proof.
  induction k as [| k IH]; intros c w Hround.
  - exists []. rewrite Nat.add_0_r, app_nil_r. destruct w. auto.
  - destruct (body_goes_round c w) as (e & d & Hbody); [apply Hround; lia |].
    destruct (IH (S c) (mkWorld (store w) (trace w ++ round c e d) (fault w)))
      as (t & Heq & Hw & Ht & Hs & Hc); [intros i Hi; apply Hround; lia |].
    exists (round c e d ++ t)%list.
    rewrite tryResolve_unfold_body, Hbody.
    replace (Z.of_nat c + 1) with (Z.of_nat (S c)) by lia.
    rewrite Heq. cbn [store trace fault].
    replace (S c + k)%nat with (c + S k)%nat by lia.
    rewrite <- app_assoc. split; [reflexivity |].
    unfold invocations in *. rewrite !count_app, Hw, Ht, Hs, Hc.
    repeat split; reflexivity.
Qed.

(** The worker fulfils: the value is stored with the expiry and the
    promise resolves with it. *)
Lemma tryResolve_fulfils attempt c w v :
  healthy w ->
  run c = Fulfils v ->
  tryResolve s run key attempt c w =
  (Resolved v,
   mkWorld (cache_set (store w) key v (Some (expiry s)))
           (trace w ++ [EvWorker c; EvSet key v (Some (expiry s))])
           (fault w)).
Proof.
  intros Hw Hrun. rewrite tryResolve_unfold_body. unfold tryResolve_body.
  rewrite Hrun, do_set_healthy by (apply healthy_emit, Hw).
  unfold emit. cbn [store trace fault]. rewrite <- app_assoc. reflexivity.
Qed.

(** The worker rejects with [rejectAs] present: the fallback is stored,
    and the promise is left pending. *)
Lemma tryResolve_rejectAs attempt c w e fallback :
  healthy w ->
  run c = Rejects e -> rejectAs s = Some fallback ->
  tryResolve s run key attempt c w =
  (Pending,
   mkWorld (cache_set (store w) key fallback None)
           (trace w ++ [EvWorker c; EvSet key fallback None;
                        EvUnhandled rejectAs_not_defined])
           (fault w)).
Proof.
  intros Hw Hrun Hrej. rewrite tryResolve_unfold_body.
  unfold tryResolve_body, on_failure.
  rewrite Hrun, Hrej, do_set_healthy by (apply healthy_emit, Hw).
  unfold emit. cbn [store trace fault]. rewrite <- !app_assoc. reflexivity.
Qed.

(** The worker rejects with no retry left. *)
Lemma tryResolve_exhausted attempt c w e :
  run c = Rejects e -> rejectAs s = None -> attempt + 1 > retry s ->
  tryResolve s run key attempt c w = (Rejected e, emit (EvWorker c) w).
Proof.
  intros Hrun Hrej Hgt. rewrite tryResolve_unfold_body.
  unfold tryResolve_body, on_failure. rewrite Hrun, Hrej, retry_guard_holds.
  destruct (Z.gtb_spec (attempt + 1) (retry s)); [reflexivity | lia].
Qed.

(** The worker rejects, a retry is left, and [onRetry] hands back a
    value. *)
Lemma tryResolve_onRetry_value attempt c w e v :
  run c = Rejects e -> rejectAs s = None -> attempt + 1 <= retry s ->
  onRetry s e (attempt + 1) = Returns v -> v <> VUndefined ->
  tryResolve s run key attempt c w =
  (Resolved v, emit (EvOnRetry e (attempt + 1)) (emit (EvWorker c) w)).
Proof.
  intros Hrun Hrej Hle Hhook Hv. rewrite tryResolve_unfold_body.
  unfold tryResolve_body, on_failure. rewrite Hrun, Hrej, retry_guard_holds.
  destruct (Z.gtb_spec (attempt + 1) (retry s)); [lia |].
  rewrite Hhook. apply strict_neq_undefined_true in Hv. rewrite Hv.
  reflexivity.
Qed.

(** The worker rejects, a retry is left, [onRetry] stays out of it and
    the delay is not finite. *)
Lemma tryResolve_non_finite attempt c w e d :
  run c = Rejects e -> rejectAs s = None -> attempt + 1 <= retry s ->
  onRetry s e (attempt + 1) = Returns VUndefined ->
  useDelay s (attempt + 1) = Returns d -> isFinite d = false ->
  tryResolve s run key attempt c w =
  (Rejected non_numeric_delay,
   emit (EvOnRetry e (attempt + 1)) (emit (EvWorker c) w)).
Proof.
  intros Hrun Hrej Hle Hhook Hdelay Hfin. rewrite tryResolve_unfold_body.
  unfold tryResolve_body, on_failure. rewrite Hrun, Hrej, retry_guard_holds.
  destruct (Z.gtb_spec (attempt + 1) (retry s)); [lia |].
  rewrite Hhook. simpl strict_neq. cbv iota.
  rewrite Hdelay, Hfin. reflexivity.
Qed.

End Loop.

(** On a miss the wrapper reads the store and enters the loop. *)
Lemma cache_function_miss options run key w :
  misses options key w ->
  cache_function options (Factory run) w =
  tryResolve (settings_of options) run key 0 0%nat
    (emit (EvGet key (invalidStore (settings_of options))) w).
Proof.
  intros (res & (Hw & Hid & Hkey & Hen & Hres) & Hmiss).
  unfold cache_function. rewrite Hid. simpl id_missing.
  apply String.eqb_neq in Hkey. rewrite Hkey, Hen. simpl negb. cbv iota.
  rewrite do_get_healthy by exact Hw. rewrite <- Hres, Hmiss. reflexivity.
Qed.

(** On a miss, [k] rounds lead to invocation [k]. *)
Lemma cache_function_rounds options run key w k :
  misses options key w ->
  (forall i, (i < k)%nat -> goes_round (settings_of options) run i) ->
  exists t,
    cache_function options (Factory run) w =
    tryResolve (settings_of options) run key (Z.of_nat k) k
      (mkWorld (store w) (trace w ++ t) (fault w)) /\
    invocations t = k /\ count is_timer t = k /\
    count is_set t = 0%nat /\ count is_onCached t = 0%nat.
Proof.
  intros Hmiss Hround.
  destruct (tryResolve_rounds (settings_of options) run key k 0%nat
              (emit (EvGet key (invalidStore (settings_of options))) w))
    as (t & Heq & Hw & Ht & Hs & Hc); [intros i Hi; apply Hround; lia |].
  exists (EvGet key (invalidStore (settings_of options)) :: t).
  rewrite (cache_function_miss _ _ _ _ Hmiss).
  change (Z.of_nat 0) with 0 in Heq. rewrite Heq. unfold emit. cbn [store trace fault].
  rewrite <- app_assoc. split; [reflexivity |].
  unfold invocations in *.
  change (EvGet key (invalidStore (settings_of options)) :: t)
    with ([EvGet key (invalidStore (settings_of options))] ++ t)%list.
  rewrite !count_app, Hw, Ht, Hs, Hc. repeat split; reflexivity.
Qed.

(** With [rejectAs] among the settings, a first failure stores the
    fallback and leaves the promise pending. *)
Lemma cache_function_rejectAs options run key w e fallback :
  misses options key w ->
  rejectAs (settings_of options) = Some fallback ->
  run 0%nat = Rejects e ->
  cache_function options (Factory run) w =
  (Pending,
   mkWorld (cache_set (store w) key fallback None)
           (trace w ++ [EvGet key (invalidStore (settings_of options));
                        EvWorker 0; EvSet key fallback None;
                        EvUnhandled rejectAs_not_defined])
           (fault w)).
Proof.
  intros Hmiss Hrej Hrun. rewrite (cache_function_miss _ _ _ _ Hmiss).
  rewrite (tryResolve_rejectAs _ _ _ _ _ _ e fallback); try assumption.
  - unfold emit. cbn [store trace fault]. rewrite <- app_assoc. reflexivity.
  - apply healthy_emit. destruct Hmiss as (res & (Hw & _) & _). exact Hw.
Qed.

Import Scenarios.

(** A write the store refuses is handled like a failure of the worker:
    with a retry left the worker runs again and the second write goes
    through. *)
Example refused_write_is_retried :
  exists w',
    cache_function (retry_options 2) (Factory always_fulfils) flaky_world
      = (Resolved (VStr "v"), w') /\
    invocations (trace w') = 2%nat /\
    count is_set (trace w') = 2%nat /\
    store w' !! "k" = Some (VStr "v", Some "1h").
Proof.
  eexists. split.
  - unfold cache_function. simpl id. cbn [id_missing String.eqb Ascii.eqb Bool.eqb].
    cbv beta iota. simpl truthy. cbv beta iota.
    unfold do_get, next_fault. simpl.
    rewrite tryResolve_unfold_body. simpl.
    rewrite tryResolve_unfold_body. simpl. reflexivity.
  - repeat split.
Qed.

(** C1.  With [rejectAs] configured and a worker that fails, the call is
    expected to store the fallback, resolve with it and not retry.
    Evaluated at [{id: 'k', rejectAs: 'FALLBACK', retry: 2}] with a worker
    that always rejects and an empty store: the fallback is written under
    ['k'] (without expiry), the worker runs once and no timer is set, but
    the continuation [()=> rejectAs] names an identifier that does not
    exist and nothing calls [resolve]: the promise stays pending and the
    ReferenceError goes unhandled. *)
Theorem C1_rejectAs_stores_fallback_but_never_resolves :
  exists w',
    cache_function fallback_options (Factory always_fails) empty_world
      = (Pending, w') /\
    store w' !! "k" = Some (VStr "FALLBACK", None) /\
    invocations (trace w') = 1%nat /\
    count is_timer (trace w') = 0%nat /\
    In (EvUnhandled rejectAs_not_defined) (trace w').
Proof.
  eexists. split.
  - apply (cache_function_rejectAs fallback_options always_fails "k"
             empty_world (VNum (Fin 0)) (VStr "FALLBACK")).
    + exists (VStr "!!!UNKNOWN!!!"). repeat split. discriminate.
    + reflexivity.
    + reflexivity.
  - cbn [store trace]. repeat split; try reflexivity. simpl. auto 10.
Qed.

(** C4.  On a miss with [retry] set to [r] and no [rejectAs], when every
    invocation of the worker rejects (and, as with the default hooks,
    [onRetry] returns undefined each time it is consulted and each delay
    computed is finite), the call rejects with the error of the last
    invocation, number [r] counted from 0, the worker having been invoked
    exactly [r + 1] times; the store is untouched. *)
Theorem C4_exhausted_retries_reject_with_last_error
  options run key w (r : nat) :
  misses options key w ->
  rejectAs (settings_of options) = None ->
  retry (settings_of options) = Z.of_nat r ->
  (forall i, exists e, run i = Rejects e) ->
  (forall i e, (i < r)%nat -> run i = Rejects e ->
      onRetry (settings_of options) e (Z.of_nat i + 1) = Returns VUndefined) ->
  (forall i, (i < r)%nat -> exists d,
      useDelay (settings_of options) (Z.of_nat i + 1) = Returns d /\
      isFinite d = true) ->
  exists e w',
    run r = Rejects e /\
    cache_function options (Factory run) w = (Rejected e, w') /\
    invocations (trace w') = (invocations (trace w) + r + 1)%nat /\
    store w' = store w.
Proof.
  intros Hmiss Hrej Hretry Hfail Hhook Hdelay.
  destruct (cache_function_rounds options run key w r Hmiss)
    as (t & Heq & Hw & _).
  { intros i Hi. split; [assumption |]. split; [lia |].
    destruct (Hfail i) as [e He]. destruct (Hdelay i Hi) as (d & Hd & Hf).
    exists e, d. auto. }
  destruct (Hfail r) as [e He].
  exists e. eexists. split; [assumption |]. split.
  - rewrite Heq. apply tryResolve_exhausted; [assumption | assumption | lia].
  - unfold emit, invocations in *. cbn [store trace].
    rewrite !count_app, Hw. unfold count. split; [simpl; lia | reflexivity].
Qed.

(** C4 at [{id: 'k', retry: 2}] with a worker that always rejects: three
    invocations, rejected with the third error. *)
Lemma C4_witness :
  exists e w',
    always_fails 2%nat = Rejects e /\
    cache_function (retry_options 2) (Factory always_fails) empty_world
      = (Rejected e, w') /\
    invocations (trace w') = (invocations (trace empty_world) + 2 + 1)%nat /\
    store w' = store empty_world.
Proof.
  apply (C4_exhausted_retries_reject_with_last_error
           (retry_options 2) always_fails "k" empty_world 2).
  - exists (VStr "!!!UNKNOWN!!!"). repeat split. discriminate.
  - reflexivity.
  - reflexivity.
  - intros i. eexists. reflexivity.
  - intros i e Hi Hrun. reflexivity.
  - intros i Hi. exists (Fin 100). split; reflexivity.
Defined.

(** C5.  On a miss, when an invocation of the worker fulfils (the [k]
    earlier ones having failed and gone round the loop), the value is
    written to the store under the id with the configured expiry, the call
    resolves with it, and the worker was invoked exactly [k + 1] times.
    With [retry = 3] and a worker failing twice this is [k = 2]: three
    invocations. *)
Theorem C5_success_is_stored_and_resolved options run key w (k : nat) v :
  misses options key w ->
  (forall i, (i < k)%nat -> goes_round (settings_of options) run i) ->
  run k = Fulfils v ->
  exists w',
    cache_function options (Factory run) w = (Resolved v, w') /\
    store w' = <[key := (v, Some (expiry (settings_of options)))]> (store w) /\
    last (trace w') = Some (EvSet key v (Some (expiry (settings_of options)))) /\
    count is_set (trace w') = (count is_set (trace w) + 1)%nat /\
    invocations (trace w') = (invocations (trace w) + k + 1)%nat.
Proof.
  intros Hmiss Hround Hrun.
  destruct (cache_function_rounds options run key w k Hmiss Hround)
    as (t & Heq & Hw & _ & Hs & _).
  assert (Hhealthy : healthy w) by (destruct Hmiss as (res & (H & _) & _); exact H).
  eexists. split.
  - rewrite Heq. apply tryResolve_fulfils; [apply healthy_trace, Hhealthy | assumption].
  - unfold cache_set, invocations in *. cbn [store trace].
    split; [reflexivity |].
    split; [rewrite last_app; reflexivity |].
    rewrite !count_app, Hw, Hs. unfold count. split; simpl; lia.
Qed.

(** C5 at [{id: 'k', retry: 3}] with a worker that rejects twice and then
    fulfils with ['done']. *)
Lemma C5_witness :
  exists w',
    cache_function (retry_options 3) (Factory fails_twice) empty_world
      = (Resolved (VStr "done"), w') /\
    store w' = <[ "k" := (VStr "done", Some "1h") ]> (store empty_world) /\
    last (trace w') = Some (EvSet "k" (VStr "done") (Some "1h")) /\
    count is_set (trace w') = (count is_set (trace empty_world) + 1)%nat /\
    invocations (trace w') = (invocations (trace empty_world) + 2 + 1)%nat.
Proof.
  apply (C5_success_is_stored_and_resolved
           (retry_options 3) fails_twice "k" empty_world 2 (VStr "done")).
  - exists (VStr "!!!UNKNOWN!!!"). repeat split. discriminate.
  - intros i Hi. split; [reflexivity |]. split; [simpl; lia |].
    exists (VNum (Fin (Z.of_nat i))), (Fin 100).
    destruct i as [| [| i]]; [repeat split .. | lia].
  - reflexivity.
Defined.

(** C6.  On a hit (the value read differs from the [invalidStore]
    sentinel) [onCached] is run on the value; if it returns a defined
    value the call resolves with that value, if it returns undefined the
    call resolves with the stored value; the worker is not invoked and
    nothing is written to the store. *)
Theorem C6_hit_runs_onCached_only options run key w res :
  hits options key w res ->
  exists o w',
    cache_function options (Factory run) w = (o, w') /\
    In (EvOnCached res) (trace w') /\
    invocations (trace w') = invocations (trace w) /\
    count is_set (trace w') = count is_set (trace w) /\
    store w' = store w /\
    (forall x, onCached (settings_of options) res = Returns x ->
               x <> VUndefined -> o = Resolved x) /\
    (onCached (settings_of options) res = Returns VUndefined ->
     o = Resolved res).
Proof.
  intros ((Hw & Hid & Hkey & Hen & Hres) & Hhit).
  unfold cache_function. rewrite Hid. simpl id_missing.
  apply String.eqb_neq in Hkey. rewrite Hkey, Hen. simpl negb. cbv iota.
  rewrite do_get_healthy by exact Hw. rewrite <- Hres, Hhit.
  destruct (onCached (settings_of options) res) as [output | e] eqn:Hhook.
  - eexists. eexists. split; [reflexivity |].
    unfold emit, invocations. cbn [store trace]. rewrite !count_app. unfold count.
    split; [rewrite !in_app_iff; simpl; auto |].
    split; [simpl; lia |]. split; [simpl; lia |]. split; [reflexivity |].
    split.
    + intros x Hx Hdef. injection Hx as ->.
      apply strict_neq_undefined_true in Hdef. rewrite Hdef. reflexivity.
    + intros Hx. injection Hx as ->. reflexivity.
  - eexists. eexists. split; [reflexivity |].
    unfold emit, invocations. cbn [store trace]. rewrite !count_app. unfold count.
    split; [rewrite !in_app_iff; simpl; auto |].
    split; [simpl; lia |]. split; [simpl; lia |]. split; [reflexivity |].
    split; [intros x Hx; discriminate | intros Hx; discriminate].
Qed.

(** C6 at a store holding ['Y'] under ['k'] and [onCached] returning
    ['X']. *)
Lemma C6_witness :
  exists o w',
    cache_function onCached_options (Factory always_fails) cached_world
      = (o, w') /\
    In (EvOnCached (VStr "Y")) (trace w') /\
    invocations (trace w') = invocations (trace cached_world) /\
    count is_set (trace w') = count is_set (trace cached_world) /\
    store w' = store cached_world /\
    (forall x, onCached (settings_of onCached_options) (VStr "Y") = Returns x ->
               x <> VUndefined -> o = Resolved x) /\
    (onCached (settings_of onCached_options) (VStr "Y") = Returns VUndefined ->
     o = Resolved (VStr "Y")).
Proof.
  apply (C6_hit_runs_onCached_only
           onCached_options always_fails "k" cached_world (VStr "Y")).
  split; [| reflexivity]. repeat split. discriminate.
Defined.

(** C7.  In the retry loop, after [k] rounds, when the worker rejects, a
    retry is left, [onRetry] returns undefined and the computed delay
    ([retryDelay(attempt, settings)] for a function, the setting itself
    otherwise) is not finite, the call rejects with the non-numeric-delay
    error; no timer is set for a further attempt and the worker is not
    invoked again: [k + 1] invocations and [k] timers in all. *)
Theorem C7_non_finite_delay_is_fatal options run key w (k : nat) e d :
  misses options key w ->
  (forall i, (i < k)%nat -> goes_round (settings_of options) run i) ->
  run k = Rejects e ->
  rejectAs (settings_of options) = None ->
  Z.of_nat k + 1 <= retry (settings_of options) ->
  onRetry (settings_of options) e (Z.of_nat k + 1) = Returns VUndefined ->
  useDelay (settings_of options) (Z.of_nat k + 1) = Returns d ->
  isFinite d = false ->
  exists w',
    cache_function options (Factory run) w = (Rejected non_numeric_delay, w') /\
    invocations (trace w') = (invocations (trace w) + k + 1)%nat /\
    count is_timer (trace w') = (count is_timer (trace w) + k)%nat /\
    store w' = store w.
Proof.
  intros Hmiss Hround Hrun Hrej Hle Hhook Hdelay Hfin.
  destruct (cache_function_rounds options run key w k Hmiss Hround)
    as (t & Heq & Hw & Ht & _).
  eexists. split.
  - rewrite Heq. eapply tryResolve_non_finite; eassumption.
  - unfold emit, invocations in *. cbn [store trace].
    rewrite !count_app, Hw, Ht. unfold count. repeat split; simpl; lia.
Qed.

(** C7 at [{id: 'k', retry: 2, retryDelay: attempt => undefined}] on the
    first failure. *)
Lemma C7_witness :
  exists w',
    cache_function bad_delay_options (Factory always_fails) empty_world
      = (Rejected non_numeric_delay, w') /\
    invocations (trace w') = (invocations (trace empty_world) + 0 + 1)%nat /\
    count is_timer (trace w') = (count is_timer (trace empty_world) + 0)%nat /\
    store w' = store empty_world.
Proof.
  apply (C7_non_finite_delay_is_fatal
           bad_delay_options always_fails "k" empty_world 0 (VNum (Fin 0)) NaN).
  - exists (VStr "!!!UNKNOWN!!!"). repeat split. discriminate.
  - intros i Hi. lia.
  - reflexivity.
  - reflexivity.
  - simpl. lia.
  - reflexivity.
  - reflexivity.
  - reflexivity.
Defined.

(** C8.  In the retry loop, after [k] rounds, when the worker rejects, a
    retry is left and [onRetry] returns a defined value, the call resolves
    with that value at once: the worker is not invoked again, no timer is
    set, and the value is not written to the store. *)
Theorem C8_onRetry_value_resolves_uncached options run key w (k : nat) e v :
  misses options key w ->
  (forall i, (i < k)%nat -> goes_round (settings_of options) run i) ->
  run k = Rejects e ->
  rejectAs (settings_of options) = None ->
  Z.of_nat k + 1 <= retry (settings_of options) ->
  onRetry (settings_of options) e (Z.of_nat k + 1) = Returns v ->
  v <> VUndefined ->
  exists w',
    cache_function options (Factory run) w = (Resolved v, w') /\
    invocations (trace w') = (invocations (trace w) + k + 1)%nat /\
    count is_timer (trace w') = (count is_timer (trace w) + k)%nat /\
    count is_set (trace w') = count is_set (trace w) /\
    store w' = store w.
Proof.
  intros Hmiss Hround Hrun Hrej Hle Hhook Hdef.
  destruct (cache_function_rounds options run key w k Hmiss Hround)
    as (t & Heq & Hw & Ht & Hs & _).
  eexists. split.
  - rewrite Heq. eapply tryResolve_onRetry_value; eassumption.
  - unfold emit, invocations in *. cbn [store trace].
    rewrite !count_app, Hw, Ht, Hs. unfold count. repeat split; simpl; lia.
Qed.

(** C8 at [{id: 'k', retry: 2, onRetry: () => 'GIVE-UP'}] on the first
    failure. *)
Lemma C8_witness :
  exists w',
    cache_function onRetry_options (Factory always_fails) empty_world
      = (Resolved (VStr "GIVE-UP"), w') /\
    invocations (trace w') = (invocations (trace empty_world) + 0 + 1)%nat /\
    count is_timer (trace w') = (count is_timer (trace empty_world) + 0)%nat /\
    count is_set (trace w') = count is_set (trace empty_world) /\
    store w' = store empty_world.
Proof.
  apply (C8_onRetry_value_resolves_uncached
           onRetry_options always_fails "k" empty_world 0
           (VNum (Fin 0)) (VStr "GIVE-UP")).
  - exists (VStr "!!!UNKNOWN!!!"). repeat split. discriminate.
  - intros i Hi. lia.
  - reflexivity.
  - reflexivity.
  - simpl. lia.
  - reflexivity.
  - discriminate.
Defined.

End MemoFacts.

(** ** Properties of the file cache middleware *)

Module FileCacheFacts.
Import FileCache.

Lemma count_out_app p (t1 t2 : list Event) :
  count p (t1 ++ t2) = (count p t1 + count p t2)%nat.
Proof. unfold count. rewrite List.filter_app, List.length_app. reflexivity. Qed.

(** The [res.type] link of [cacheSend] fulfils; it only adds events, none
    of them a send or a write. *)
Lemma type_link (t : Value) r :
  exists evs,
    (if truthy t then emit (EvType t) else fulfil tt) r =
      (Returns tt, with_ r (cachePath r) (files r) (out r ++ evs)) /\
    count is_send evs = 0%nat /\ count is_write evs = 0%nat.
Proof.
  destruct (truthy t).
  - exists [EvType t]. repeat split.
  - exists []. rewrite app_nil_r. destruct r. repeat split.
Qed.

(** Content that is neither a stream nor a string reaches
    [content instanceof Buffer], which throws. *)
Lemma cacheSend_other_shape settings content opts r :
  is_a content ReadableClass = false ->
  typeof_string content = false ->
  exists r',
    cacheSend settings content opts r = (Raises not_callable, r') /\
    cachePath r' = cachePath r /\ files r' = files r /\
    count is_send (out r') = count is_send (out r) /\
    count is_write (out r') = count is_write (out r).
Proof.
  intros Hstream Hstring.
  destruct (type_link (default VNull (so_type opts)) r) as (evs & Hlink & Hs & Hw).
  eexists. split.
  - unfold cacheSend, andThen at 1. rewrite Hlink.
    unfold ifC, andThen, liftC, instanceof, Stream_Readable, Buffer.
    rewrite Hstream, Hstring.
    destruct (truthy (default (VBool _) _)); reflexivity.
  - cbn [with_ cachePath files out]. rewrite !count_out_app, Hs, Hw.
    repeat split; lia.
Qed.

(** String content with a truthy middleware-level [enabled] on a staged
    path the disk accepts: written there, then sent. *)
Lemma cacheSend_string_staged settings str opts r p :
  cachePath r = Some p ->
  write_fault r p = None ->
  setting_truthy (enabled settings) = true ->
  exists r',
    cacheSend settings (CValue (VStr str)) opts r = (Returns tt, r') /\
    files r' = <[p := Text str]> (files r) /\
    last (out r') = Some (EvSend (CValue (VStr str))).
Proof.
  intros Hpath Hdisk Hen.
  destruct (type_link (default VNull (so_type opts)) r) as (evs & Hlink & _).
  eexists. split.
  - unfold cacheSend, andThen at 1. rewrite Hlink.
    unfold ifC, andThen, liftC, instanceof, Stream_Readable.
    rewrite Hen.
    destruct (truthy (default (VBool _) _));
      cbn [is_a typeof_string data_of]; cbn beta iota;
      unfold fs_writeFile; cbn [with_ cachePath write_fault];
      rewrite Hpath, Hdisk; reflexivity.
  - cbn [with_ files out]. split; [reflexivity | apply last_snoc].
Qed.

(** A miss: the path is staged and the next handler runs. *)
Lemma cacheFile_miss options req r en p :
  resolve_setting (enabled (settings_of options)) req = Fulfils en ->
  truthy en = true ->
  resolve_setting (path (settings_of options)) req = Fulfils p ->
  files r !! p = None ->
  mkdir_fault r p = None ->
  opt_onCreateFile options = None ->
  cacheFile options req r =
  (Returns tt,
   with_ r (Some p) (files r) (out r ++ [EvAccess p; EvMkdirParent p; EvNext])).
Proof.
  intros Hen Htruthy Hpath Hfile Hdisk Hhook.
  unfold cacheFile, andThen, orCatch, set_cachePath, resolve_both.
  rewrite Hen, Hpath. unfold fulfil. rewrite Htruthy. cbn [negb].
  unfold fs_exists. cbn [with_ files cachePath out]. rewrite Hfile.
  rewrite bool_decide_eq_false_2 by (intros [x Hx]; discriminate).
  unfold fs_mkdir_parent, emit, settings_of. rewrite Hhook.
  cbn [with_ files cachePath out mkdir_fault write_fault default onCreateFile].
  rewrite Hdisk. unfold fulfil.
  cbn [with_ files cachePath out mkdir_fault write_fault].
  rewrite <- !app_assoc. reflexivity.
Qed.

Import FileScenarios.

(** C2.  On a request whose cache path was staged, string or buffer
    content is expected to be persisted at the staged path and sent.
    Evaluated for a buffer after a miss on ['/cache/7']: the test
    [content instanceof Buffer] has the exports object of the [buffer]
    module on its right and throws, so the promise rejects with a
    TypeError, nothing is written at the staged path and nothing is sent. *)
Theorem C2_buffer_content_is_neither_persisted_nor_sent :
  cacheFile cache7_options get7 empty_disk
    = (Returns tt, staged7) /\
  cachePath staged7 = Some "/cache/7" /\
  exists r',
    cacheSend (settings_of cache7_options) (CBuffer png_bytes) plain_send staged7
      = (Raises not_callable, r') /\
    files r' !! "/cache/7" = None /\
    count is_write (out r') = 0%nat /\
    count is_send (out r') = 0%nat.
Proof.
  assert (Hstaged : cacheFile cache7_options get7 empty_disk =
                    (Returns tt,
                     with_ empty_disk (Some "/cache/7") ∅
                       [EvAccess "/cache/7"; EvMkdirParent "/cache/7"; EvNext])).
  { apply (cacheFile_miss cache7_options get7 empty_disk (VBool true));
      reflexivity. }
  unfold staged7. rewrite Hstaged. cbn [snd].
  split; [reflexivity |]. split; [reflexivity |].
  destruct (cacheSend_other_shape (settings_of cache7_options)
              (CBuffer png_bytes) plain_send
              (with_ empty_disk (Some "/cache/7") ∅
                 [EvAccess "/cache/7"; EvMkdirParent "/cache/7"; EvNext]))
    as (r' & Hsend & _ & Hfiles & Hs & Hw); [reflexivity | reflexivity |].
  exists r'. split; [exact Hsend |].
  rewrite Hfiles, Hs, Hw. repeat split.
Qed.

(** C3.  Content that is neither stream, string nor buffer is expected to
    fail with the 'Unknown content type' error.  Evaluated for the number
    42 after a miss on ['/cache/7']: the call does fail, but with the
    TypeError thrown by [content instanceof Buffer]; the [throw] of the
    final [else] is not reached. *)
Theorem C3_other_content_fails_with_TypeError_instead :
  exists r',
    cacheSend (settings_of cache7_options) (CValue (VNum (Fin 42))) plain_send
      staged7 = (Raises not_callable, r') /\
    not_callable <> unknown_content_type /\
    count is_send (out r') = 0%nat.
Proof.
  destruct (cacheSend_other_shape (settings_of cache7_options)
              (CValue (VNum (Fin 42))) plain_send staged7)
    as (r' & Hsend & _ & _ & Hs & _); [reflexivity | reflexivity |].
  exists r'. split; [exact Hsend |]. split; [discriminate |].
  rewrite Hs. reflexivity.
Qed.

(** C9.  When [enabled] resolves to a falsy value (the path having
    resolved as well), the middleware performs no existence check, calls
    no hook, and invokes the next handler, whatever is on disk; the skip
    signal it throws internally is caught and does not reach
    [res.sendError]. *)
Theorem C9_disabled_skips_check_and_calls_next options req r en p :
  resolve_setting (enabled (settings_of options)) req = Fulfils en ->
  truthy en = false ->
  resolve_setting (path (settings_of options)) req = Fulfils p ->
  exists r',
    cacheFile options req r = (Returns tt, r') /\
    out r' = (out r ++ [EvNext])%list /\
    count is_access (out r') = count is_access (out r) /\
    count is_sendError (out r') = count is_sendError (out r) /\
    count is_next (out r') = (count is_next (out r) + 1)%nat /\
    files r' = files r /\ cachePath r' = None.
Proof.
  intros Hen Hfalsy Hpath. eexists. split.
  - unfold cacheFile, andThen, orCatch, set_cachePath, resolve_both.
    rewrite Hen, Hpath. unfold fulfil. rewrite Hfalsy. reflexivity.
  - cbn [with_ out files cachePath]. rewrite !count_out_app. unfold count.
    repeat split; simpl; lia.
Qed.

(** C9 at [{path: '/cache/7', enabled: async () => false}] with the file
    present on disk. *)
Lemma C9_witness :
  exists r',
    cacheFile disabled_options get7 disk_with_7 = (Returns tt, r') /\
    out r' = (out disk_with_7 ++ [EvNext])%list /\
    count is_access (out r') = count is_access (out disk_with_7) /\
    count is_sendError (out r') = count is_sendError (out disk_with_7) /\
    count is_next (out r') = (count is_next (out disk_with_7) + 1)%nat /\
    files r' = files disk_with_7 /\ cachePath r' = None.
Proof.
  apply (C9_disabled_skips_check_and_calls_next
           disabled_options get7 disk_with_7 (VBool false) "/cache/7");
    reflexivity.
Defined.

(** C10.  [cacheSend] with string content on a request without a staged
    path ([req.cachePath] is null), under a truthy middleware-level
    [enabled]: whatever the per-call options say, the write is attempted
    on the null path, the promise rejects, and the content is not sent. *)
Theorem C10_string_without_staged_path_rejects_unsent settings str opts r :
  cachePath r = None ->
  setting_truthy (enabled settings) = true ->
  exists r',
    cacheSend settings (CValue (VStr str)) opts r = (Raises invalid_path, r') /\
    count is_send (out r') = count is_send (out r) /\
    count is_write (out r') = count is_write (out r) /\
    files r' = files r.
Proof.
  intros Hpath Hen.
  destruct (type_link (default VNull (so_type opts)) r) as (evs & Hlink & Hs & Hw).
  eexists. split.
  - unfold cacheSend, andThen at 1. rewrite Hlink.
    unfold ifC, andThen, liftC, instanceof, Stream_Readable.
    rewrite Hen.
    destruct (truthy (default (VBool _) _));
      cbn [is_a typeof_string data_of]; cbn beta iota;
      unfold fs_writeFile; cbn [with_ cachePath]; rewrite Hpath; reflexivity.
  - cbn [with_ out files]. rewrite !count_out_app, Hs, Hw.
    repeat split; lia.
Qed.

(** C10 on the request left by the switched-off middleware, with the
    per-call [enabled] explicitly false. *)
Lemma C10_witness :
  exists r',
    cacheSend (settings_of disabled_options) (CValue (VStr "body"))
      (mkSendOptions (Some (VBool false)) None) skipped7
      = (Raises invalid_path, r') /\
    count is_send (out r') = count is_send (out skipped7) /\
    count is_write (out r') = count is_write (out skipped7) /\
    files r' = files skipped7.
Proof.
  apply (C10_string_without_staged_path_rejects_unsent
           (settings_of disabled_options) "body"
           (mkSendOptions (Some (VBool false)) None) skipped7);
    reflexivity.
Defined.

End FileCacheFacts.

(** ** Further properties of [app.cache.function] *)

Module MemoMore.
Import Memo MemoViews MemoFacts Scenarios.

Lemma count_snoc p (t : list Event) ev :
  count p (t ++ [ev]) = (count p t + (if p ev then 1 else 0))%nat.
Proof. rewrite count_app. unfold count. simpl. destruct (p ev); reflexivity. Qed.

Lemma valid_not_missing options key :
  valid options key -> id_missing (id (settings_of options)) = false.
Proof.
  intros [Hid Hkey]. rewrite Hid. simpl. apply String.eqb_neq. exact Hkey.
Qed.

Lemma continues_refl key w : continues key w w [].
Proof. unfold continues. rewrite app_nil_r. auto. Qed.

Lemma continues_trans key w1 w2 w3 t1 t2 :
  continues key w1 w2 t1 -> continues key w2 w3 t2 ->
  continues key w1 w3 (t1 ++ t2).
Proof.
  intros (Ht1 & Hf1 & Hs1) (Ht2 & Hf2 & Hs2). unfold continues.
  rewrite Ht2, Ht1, Hf2, Hf1, app_assoc. repeat split.
  intros k' Hk. rewrite Hs2, Hs1 by exact Hk. reflexivity.
Qed.

Ltac tidy_pairs :=
  repeat match goal with
    | H : (_, _) = (_, _) |- _ => injection H as ? ?
    | H : Returns _ = Raises _ |- _ => discriminate H
    | H : Raises _ = Returns _ |- _ => discriminate H
    | H : Returns _ = Returns _ |- _ => injection H as ?
    | H : Raises _ = Raises _ |- _ => injection H as ?
    end; subst.

(** One run of the body: the worker is invoked once, [onRetry] is
    consulted at most once, the store is written to at most twice, a timer is left exactly when the run asks to
    be repeated, and only the entry under [key] can change. *)
Lemma body_frame s run key attempt calls w :
  exists t,
    continues key w (world_of (tryResolve_body s run key attempt calls w)) t /\
    invocations t = 1%nat /\
    count is_timer t = timers_of (tryResolve_body s run key attempt calls w) /\
    (count is_onRetry t <= if attempt + 1 >? retry s then 0 else 1)%nat /\
    (count is_set t <= 2)%nat /\
    count is_get t = 0%nat.
Proof.
  unfold tryResolve_body, on_failure, log_and_reject, do_set, emit, continues.
  repeat (case_match; tidy_pairs); cbn [world_of timers_of trace store fault];
    rewrite <- ?app_assoc; (eexists; split; [split; [reflexivity |] |]);
    try (split; [reflexivity |]; intros k' Hk; unfold cache_set;
         rewrite ?lookup_insert_ne by (intro Heq; apply Hk; symmetry; exact Heq);
         reflexivity);
    unfold invocations, count; simpl; repeat split; lia.
Qed.

(** The whole loop from any state: between one and
    [1 + (retry - attempt)] invocations, one timer less than invocations,
    [onRetry] consulted no more often than retries are left, no read of
    the store, and only the entry under [key] touched. *)
Lemma tryResolve_frame s run key n : forall attempt calls w,
  (Z.to_nat (retry s + 1 - attempt) <= n)%nat ->
  exists t,
    continues key w (snd (tryResolve s run key attempt calls w)) t /\
    invocations t = (count is_timer t + 1)%nat /\
    (count is_timer t <= Z.to_nat (retry s - attempt))%nat /\
    (count is_onRetry t <= Z.to_nat (retry s - attempt))%nat /\
    count is_get t = 0%nat.
Proof.
  induction n as [| n IH]; intros attempt calls w Hn;
    rewrite tryResolve_unfold_body;
    destruct (body_frame s run key attempt calls w)
      as (t & Hc & Hi & Ht & Ho & _ & Hg);
    destruct (tryResolve_body s run key attempt calls w) as [o w1 | a1 w1] eqn:Hbody;
    cbn [world_of timers_of snd] in *.
  - exists t. split; [exact Hc |]. rewrite Hi, Ht.
    destruct (Z.gtb_spec (attempt + 1) (retry s)); repeat split; lia.
  - apply tryResolve_body_reschedule in Hbody. lia.
  - exists t. split; [exact Hc |]. rewrite Hi, Ht.
    destruct (Z.gtb_spec (attempt + 1) (retry s)); repeat split; lia.
  - apply tryResolve_body_reschedule in Hbody as [-> Hle].
    destruct (IH (attempt + 1) (S calls) w1) as (t' & Hc' & Hi' & Ht' & Ho' & Hg');
      [lia |].
    exists (t ++ t')%list. split; [eapply continues_trans; eassumption |].
    rewrite !count_app. unfold invocations in *. rewrite !count_app.
    destruct (Z.gtb_spec (attempt + 1) (retry s)); [lia |].
    repeat split; lia.
Qed.

(** The wrapper as a whole. *)
Lemma cache_function_frame options worker w :
  exists t,
    trace (snd (cache_function options worker w)) = (trace w ++ t)%list /\
    fault (snd (cache_function options worker w)) = fault w /\
    (forall k', id (settings_of options) <> Some k' ->
       store (snd (cache_function options worker w)) !! k' = store w !! k') /\
    (invocations t <= 1 + Z.to_nat (retry (settings_of options)))%nat /\
    (count is_timer t <= Z.to_nat (retry (settings_of options)))%nat /\
    (count is_onRetry t <= Z.to_nat (retry (settings_of options)))%nat /\
    (count is_get t <= 1)%nat.
Proof.
  unfold cache_function.
  destruct (id (settings_of options)) as [key |] eqn:Hid;
    [| exists []; rewrite app_nil_r; repeat split; unfold invocations, count; simpl; lia].
  destruct (id_missing (Some key));
    [exists []; rewrite app_nil_r; repeat split; unfold invocations, count; simpl; lia |].
  destruct worker as [| | run];
    try (exists []; rewrite app_nil_r; repeat split; unfold invocations, count; simpl; lia).
  destruct (negb (truthy (enabled (settings_of options)))).
  - exists [EvWorker 0].
    destruct (run 0%nat); cbn [snd emit trace store fault];
      repeat split; unfold invocations, count; simpl; lia.
  - unfold do_get. destruct (next_fault w).
    + exists [EvGet key (invalidStore (settings_of options))].
      cbn [snd emit trace store fault].
      repeat split; unfold invocations, count; simpl; lia.
    + destruct (strict_neq _ _).
      * destruct (onCached _ _); eexists; cbn [snd emit trace store fault];
          rewrite <- ?app_assoc;
          (split; [reflexivity |]); repeat split;
          unfold invocations, count; simpl; lia.
      * destruct (tryResolve_frame (settings_of options) run key
                    (Z.to_nat (retry (settings_of options) + 1 - 0)) 0 0%nat
                    (emit (EvGet key (invalidStore (settings_of options))) w))
          as (t & (Htr & Hf & Hs) & Hi & Ht & Ho & Hg); [lia |].
        exists (EvGet key (invalidStore (settings_of options)) :: t).
        rewrite Htr, Hf. cbn [emit trace store fault] in *.
        rewrite <- app_assoc. split; [reflexivity |]. split; [reflexivity |].
        split; [intros k' Hk; apply Hs; congruence |].
        change (EvGet key (invalidStore (settings_of options)) :: t)
          with ([EvGet key (invalidStore (settings_of options))] ++ t)%list.
        unfold invocations in *. rewrite !count_app.
        replace (retry (settings_of options) - 0) with
          (retry (settings_of options)) in * by lia.
        remember (Z.to_nat (retry (settings_of options))) as r eqn:Hr. clear Hr.
        unfold count in *. simpl. repeat split; lia.
Qed.

(** X1.  Whatever the options, the worker, the hooks and the store do, a
    call invokes the worker at most [1 + retry] times (once when [retry]
    is not positive), sets at most [retry] timers and consults [onRetry]
    at most [retry] times. *)
Theorem X1_invocations_are_bounded_by_retry options worker w :
  (invocations (trace (snd (cache_function options worker w)))
   <= invocations (trace w) + 1 + Z.to_nat (retry (settings_of options)))%nat /\
  (count is_timer (trace (snd (cache_function options worker w)))
   <= count is_timer (trace w) + Z.to_nat (retry (settings_of options)))%nat /\
  (count is_onRetry (trace (snd (cache_function options worker w)))
   <= count is_onRetry (trace w) + Z.to_nat (retry (settings_of options)))%nat.
Proof.
  destruct (cache_function_frame options worker w)
    as (t & Htr & _ & _ & Hi & Ht & Ho & _).
  rewrite Htr. unfold invocations in *. rewrite !count_app. lia.
Qed.

(** X2.  A call reads and writes the store under its own id only: every
    entry under another key is left as it was, whatever happens in the
    call. *)
Theorem X2_other_keys_are_untouched options worker w k' :
  id (settings_of options) <> Some k' ->
  store (snd (cache_function options worker w)) !! k' = store w !! k'.
Proof.
  intros Hk.
  destruct (cache_function_frame options worker w) as (t & _ & _ & Hs & _).
  apply Hs. exact Hk.
Qed.

(** X2 at a store holding an entry under ['other'], for a call under
    ['k'] that ends up writing its fallback. *)
Lemma X2_witness :
  store (snd (cache_function fallback_options (Factory always_fails) other_world))
    !! "other" = store other_world !! "other".
Proof.
  apply (X2_other_keys_are_untouched fallback_options (Factory always_fails)
           other_world "other").
  discriminate.
Defined.

(** What a hit comes to. *)
Lemma cache_function_hit options run key w res :
  hits options key w res ->
  cache_function options (Factory run) w =
  match onCached (settings_of options) res with
  | Returns output =>
      (Resolved (if strict_neq output VUndefined then output else res),
       mkWorld (store w)
         (trace w ++ [EvGet key (invalidStore (settings_of options));
                      EvOnCached res])
         (fault w))
  | Raises e =>
      (Pending,
       mkWorld (store w)
         (trace w ++ [EvGet key (invalidStore (settings_of options));
                      EvOnCached res; EvUnhandled e])
         (fault w))
  end.
Proof.
  intros ((Hw & Hid & Hkey & Hen & Hres) & Hhit).
  unfold cache_function. rewrite Hid. simpl id_missing.
  apply String.eqb_neq in Hkey. rewrite Hkey, Hen. simpl negb. cbv iota.
  rewrite do_get_healthy by exact Hw. rewrite <- Hres, Hhit.
  destruct (onCached (settings_of options) res); unfold emit;
    cbn [store trace fault]; rewrite <- ?app_assoc; reflexivity.
Qed.

Lemma misses_valid options key w :
  misses options key w ->
  healthy w /\ id (settings_of options) = Some key /\ key <> "" /\
  truthy (enabled (settings_of options)) = true.
Proof. intros (res & (Hw & Hid & Hkey & Hen & _) & _). auto. Qed.

(** X3.  Round trip through the store: when the first call misses and
    its worker eventually fulfils with a value other than the sentinel, a
    second call with the same options is served that value from the store
    (with [onCached] leaving it alone) and does not invoke its worker. *)
Theorem X3_second_call_is_served_from_the_store
  options run run2 key w (k : nat) v :
  misses options key w ->
  (forall i, (i < k)%nat -> goes_round (settings_of options) run i) ->
  run k = Fulfils v ->
  strict_neq v (invalidStore (settings_of options)) = true ->
  onCached (settings_of options) v = Returns VUndefined ->
  exists w1 w2,
    cache_function options (Factory run) w = (Resolved v, w1) /\
    cache_function options (Factory run2) w1 = (Resolved v, w2) /\
    invocations (trace w2) = invocations (trace w1) /\
    store w2 = store w1.
Proof.
  intros Hmiss Hround Hrun Hv Hhook.
  destruct (misses_valid _ _ _ Hmiss) as (Hw & Hid & Hkey & Hen).
  destruct (cache_function_rounds options run key w k Hmiss Hround)
    as (t & Heq & _).
  rewrite Heq, (tryResolve_fulfils _ _ _ _ _ _ v) by
    (try apply healthy_trace; assumption).
  eexists. eexists. split; [reflexivity |].
  rewrite (cache_function_hit options run2 key _ v).
  - rewrite Hhook. simpl strict_neq. cbv iota. split; [reflexivity |].
    cbn [store trace]. unfold invocations. rewrite !count_app.
    unfold count. simpl. split; [lia | reflexivity].
  - split; [| exact Hv]. split; [intros n; apply Hw |].
    repeat split; try assumption.
    cbn [store]. unfold cache_get, cache_set.
    rewrite lookup_insert_eq. reflexivity.
Qed.

(** X3 at [{id: 'k', retry: 3}] with a worker that rejects twice and then
    fulfils with ['done']; the second call brings a worker that would
    fail. *)
Lemma X3_witness :
  exists w1 w2,
    cache_function (retry_options 3) (Factory fails_twice) empty_world
      = (Resolved (VStr "done"), w1) /\
    cache_function (retry_options 3) (Factory always_fails) w1
      = (Resolved (VStr "done"), w2) /\
    invocations (trace w2) = invocations (trace w1) /\
    store w2 = store w1.
Proof.
  apply (X3_second_call_is_served_from_the_store
           (retry_options 3) fails_twice always_fails "k" empty_world 2
           (VStr "done")).
  - exists (VStr "!!!UNKNOWN!!!"). repeat split. discriminate.
  - intros i Hi. split; [reflexivity |]. split; [simpl; lia |].
    exists (VNum (Fin (Z.of_nat i))), (Fin 100).
    destruct i as [| [| i]]; [repeat split .. | lia].
  - reflexivity.
  - reflexivity.
  - reflexivity.
Defined.

(** X4.  With [rejectAs] configured, the fallback written on the first
    failure is what a later call gets: although the failing call itself
    never settles, a second call with the same options resolves with the
    fallback from the store and does not invoke its worker (the fallback
    being other than the sentinel and [onCached] leaving it alone). *)
Theorem X4_fallback_is_served_to_later_calls
  options run run2 key w e fallback :
  misses options key w ->
  rejectAs (settings_of options) = Some fallback ->
  run 0%nat = Rejects e ->
  strict_neq fallback (invalidStore (settings_of options)) = true ->
  onCached (settings_of options) fallback = Returns VUndefined ->
  exists w1 w2,
    cache_function options (Factory run) w = (Pending, w1) /\
    cache_function options (Factory run2) w1 = (Resolved fallback, w2) /\
    invocations (trace w2) = invocations (trace w1).
Proof.
  intros Hmiss Hrej Hrun Hv Hhook.
  destruct (misses_valid _ _ _ Hmiss) as (Hw & Hid & Hkey & Hen).
  rewrite (cache_function_rejectAs options run key w e fallback) by assumption.
  eexists. eexists. split; [reflexivity |].
  rewrite (cache_function_hit options run2 key _ fallback).
  - rewrite Hhook. simpl strict_neq. cbv iota. split; [reflexivity |].
    cbn [store trace]. unfold invocations. rewrite !count_app.
    unfold count. simpl. lia.
  - split; [| exact Hv]. split; [intros n; apply Hw |].
    repeat split; try assumption.
    cbn [store]. unfold cache_get, cache_set.
    rewrite lookup_insert_eq. reflexivity.
Qed.

(** X4 at [{id: 'k', rejectAs: 'FALLBACK', retry: 2}]. *)
Lemma X4_witness :
  exists w1 w2,
    cache_function fallback_options (Factory always_fails) empty_world
      = (Pending, w1) /\
    cache_function fallback_options (Factory always_fails) w1
      = (Resolved (VStr "FALLBACK"), w2) /\
    invocations (trace w2) = invocations (trace w1).
Proof.
  apply (X4_fallback_is_served_to_later_calls
           fallback_options always_fails always_fails "k" empty_world
           (VNum (Fin 0)) (VStr "FALLBACK")).
  - exists (VStr "!!!UNKNOWN!!!"). repeat split. discriminate.
  - reflexivity.
  - reflexivity.
  - reflexivity.
  - reflexivity.
Defined.

(** X5.  With [enabled] falsy the cache is bypassed: the worker is
    invoked exactly once and its outcome is the call's outcome
    (fulfilment, rejection, or a synchronous exception); the store is
    neither read nor written, and [rejectAs], [retry] and the hooks play
    no part. *)
Theorem X5_disabled_call_is_the_worker_alone options run key w :
  valid options key ->
  truthy (enabled (settings_of options)) = false ->
  exists o w',
    cache_function options (Factory run) w = (o, w') /\
    o = match run 0%nat with
        | Fulfils v => Resolved v
        | Rejects e => Rejected e
        | Throws e => ThrownSync e
        end /\
    trace w' = (trace w ++ [EvWorker 0])%list /\
    store w' = store w.
Proof.
  intros Hvalid Hen. pose proof (valid_not_missing _ _ Hvalid) as Hmissing.
  destruct Hvalid as [Hid Hkey].
  unfold cache_function. rewrite Hid in *. rewrite Hmissing, Hen. simpl negb.
  cbv iota. destruct (run 0%nat); eexists; eexists; repeat split.
Qed.

(** X5 at [{id: 'k', enabled: false, retry: 2, rejectAs: 'FALLBACK'}]
    with a worker that rejects. *)
Lemma X5_witness :
  exists o w',
    cache_function MemoViews.disabled_options (Factory always_fails) empty_world
      = (o, w') /\
    o = match always_fails 0%nat with
        | Fulfils v => Resolved v
        | Rejects e => Rejected e
        | Throws e => ThrownSync e
        end /\
    trace w' = (trace empty_world ++ [EvWorker 0])%list /\
    store w' = store empty_world.
Proof.
  apply (X5_disabled_call_is_the_worker_alone
           MemoViews.disabled_options always_fails "k" empty_world).
  - split; [reflexivity | discriminate].
  - reflexivity.
Defined.

(** X6.  When the read of the store fails, the call rejects with the
    store's error and the worker is not invoked: the [.catch] of the
    retry loop does not cover [app.cache.get]. *)
Theorem X6_failed_read_rejects_without_worker options run key w e :
  valid options key ->
  truthy (enabled (settings_of options)) = true ->
  next_fault w = Some e ->
  exists w',
    cache_function options (Factory run) w = (Rejected e, w') /\
    invocations (trace w') = invocations (trace w) /\
    store w' = store w.
Proof.
  intros Hvalid Hen Hfault. pose proof (valid_not_missing _ _ Hvalid) as Hmissing.
  destruct Hvalid as [Hid Hkey].
  unfold cache_function. rewrite Hid in *. rewrite Hmissing, Hen. simpl negb.
  cbv iota. unfold do_get. rewrite Hfault.
  eexists. split; [reflexivity |]. cbn [emit trace store].
  unfold invocations. rewrite count_app. unfold count. simpl.
  split; [lia | reflexivity].
Qed.

(** X6 at a store whose first operation fails, with retries configured. *)
Lemma X6_witness :
  exists w',
    cache_function (retry_options 2) (Factory always_fulfils) down_world
      = (Rejected (VError "ECONNREFUSED"), w') /\
    invocations (trace w') = invocations (trace down_world) /\
    store w' = store down_world.
Proof.
  apply (X6_failed_read_rejects_without_worker
           (retry_options 2) always_fulfils "k" down_world
           (VError "ECONNREFUSED")).
  - split; [reflexivity | discriminate].
  - reflexivity.
  - reflexivity.
Defined.

(** X7.  A write the store refuses is handled like a failure of the
    worker: with no [rejectAs] and no retry configured, the call rejects
    with the store's error although the worker fulfilled, and nothing is
    stored. *)
Theorem X7_refused_write_rejects_the_call options run key w v e :
  valid options key ->
  truthy (enabled (settings_of options)) = true ->
  next_fault w = None ->
  strict_neq (cache_get (store w) key (invalidStore (settings_of options)))
             (invalidStore (settings_of options)) = false ->
  run 0%nat = Fulfils v ->
  fault w (S (count is_store_op (trace w))) = Some e ->
  rejectAs (settings_of options) = None ->
  retry (settings_of options) <= 0 ->
  exists w',
    cache_function options (Factory run) w = (Rejected e, w') /\
    invocations (trace w') = (invocations (trace w) + 1)%nat /\
    store w' = store w.
Proof.
  intros Hvalid Hen Hread Hmiss Hrun Hwrite Hrej Hretry.
  pose proof (valid_not_missing _ _ Hvalid) as Hmissing.
  destruct Hvalid as [Hid Hkey].
  unfold cache_function. rewrite Hid in *. rewrite Hmissing, Hen. simpl negb.
  cbv iota. unfold do_get. rewrite Hread, Hmiss.
  rewrite tryResolve_unfold_body. unfold tryResolve_body. rewrite Hrun.
  unfold do_set, next_fault, emit. cbn [trace store fault].
  rewrite !count_snoc. cbn [is_store_op].
  replace (count is_store_op (trace w) + 1 + 0)%nat
    with (S (count is_store_op (trace w))) by lia.
  rewrite Hwrite. unfold on_failure. rewrite Hrej, retry_guard_holds.
  destruct (Z.gtb_spec (0 + 1) (retry (settings_of options))); [| lia].
  eexists. split; [reflexivity |]. cbn [trace store].
  unfold invocations. rewrite !count_app. unfold count. simpl.
  split; [lia | reflexivity].
Qed.

(** X7 at a store that accepts the read and refuses the write, with the
    default settings. *)
Lemma X7_witness :
  exists w',
    cache_function (BareId "k") (Factory always_fulfils) flaky_world
      = (Rejected (VError "ECONNRESET"), w') /\
    invocations (trace w') = (invocations (trace flaky_world) + 1)%nat /\
    store w' = store flaky_world.
Proof.
  apply (X7_refused_write_rejects_the_call
           (BareId "k") always_fulfils "k" flaky_world (VStr "v")
           (VError "ECONNRESET")).
  - split; [reflexivity | discriminate].
  - reflexivity.
  - reflexivity.
  - reflexivity.
  - reflexivity.
  - reflexivity.
  - reflexivity.
  - simpl. lia.
Defined.

(** What an exception of [onRetry] or of the delay function comes to. *)
Lemma tryResolve_hook_raises s run key attempt c w e e' :
  run c = Rejects e -> rejectAs s = None -> attempt + 1 <= retry s ->
  onRetry s e (attempt + 1) = Raises e' \/
  (onRetry s e (attempt + 1) = Returns VUndefined /\
   useDelay s (attempt + 1) = Raises e') ->
  tryResolve s run key attempt c w =
  (match e' with VUndefined | VNull => Pending | _ => Rejected e' end,
   mkWorld (store w)
     (trace w ++ [EvWorker c; EvOnRetry e (attempt + 1)] ++
      match e' with
      | VUndefined | VNull => [EvUnhandled toString_of_nothing]
      | _ => []
      end)
     (fault w)).
Proof.
  intros Hrun Hrej Hle Hhook. rewrite tryResolve_unfold_body.
  unfold tryResolve_body, on_failure. rewrite Hrun, Hrej, retry_guard_holds.
  destruct (Z.gtb_spec (attempt + 1) (retry s)); [lia |].
  destruct Hhook as [Hhook | [Hhook Hdelay]]; rewrite Hhook;
    [| simpl strict_neq; cbv iota; rewrite Hdelay];
    destruct e'; unfold log_and_reject, emit; cbn [trace store fault];
    rewrite <- ?app_assoc; rewrite ?app_nil_r; reflexivity.
Qed.

(** X8.  An exception thrown by [onRetry], or by [retryDelay] when it is
    a function, ends the retry loop: the call rejects with the thrown
    value instead of the worker's error, no timer is set and the worker is
    not invoked again.  When the thrown value is null or undefined the
    logging in the [catch] block fails on [e.toString()] and the call is
    left pending instead. *)
Theorem X8_hook_exception_ends_the_loop options run key w (k : nat) e e' :
  misses options key w ->
  (forall i, (i < k)%nat -> goes_round (settings_of options) run i) ->
  run k = Rejects e ->
  rejectAs (settings_of options) = None ->
  Z.of_nat k + 1 <= retry (settings_of options) ->
  onRetry (settings_of options) e (Z.of_nat k + 1) = Raises e' \/
  (onRetry (settings_of options) e (Z.of_nat k + 1) = Returns VUndefined /\
   useDelay (settings_of options) (Z.of_nat k + 1) = Raises e') ->
  exists w',
    cache_function options (Factory run) w =
      (match e' with VUndefined | VNull => Pending | _ => Rejected e' end, w') /\
    invocations (trace w') = (invocations (trace w) + k + 1)%nat /\
    count is_timer (trace w') = (count is_timer (trace w) + k)%nat /\
    store w' = store w.
Proof.
  intros Hmiss Hround Hrun Hrej Hle Hhook.
  destruct (cache_function_rounds options run key w k Hmiss Hround)
    as (t & Heq & Hw & Ht & _).
  rewrite Heq, (tryResolve_hook_raises _ _ _ _ _ _ e e') by assumption.
  eexists. split; [reflexivity |]. cbn [trace store].
  unfold invocations in *. rewrite !count_app, Hw, Ht.
  destruct e'; unfold count; simpl; repeat split; lia.
Qed.

(** X8 at [{id: 'k', retry: 2, onRetry: () => { throw new Error('stop') }}]. *)
Lemma X8_witness :
  exists w',
    cache_function throwing_onRetry_options (Factory always_fails) empty_world =
      (match VError "stop" with
       | VUndefined | VNull => Pending
       | _ => Rejected (VError "stop")
       end, w') /\
    invocations (trace w') = (invocations (trace empty_world) + 0 + 1)%nat /\
    count is_timer (trace w') = (count is_timer (trace empty_world) + 0)%nat /\
    store w' = store empty_world.
Proof.
  apply (X8_hook_exception_ends_the_loop
           throwing_onRetry_options always_fails "k" empty_world 0
           (VNum (Fin 0)) (VError "stop")).
  - exists (VStr "!!!UNKNOWN!!!"). repeat split. discriminate.
  - intros i Hi. lia.
  - reflexivity.
  - reflexivity.
  - simpl. lia.
  - left. reflexivity.
Defined.

(** X9.  On a hit, an exception thrown by [onCached] is caught by
    nothing: the call never settles; the worker is not invoked and the
    store is left alone. *)
Theorem X9_throwing_onCached_leaves_the_call_pending
  options run key w res e :
  hits options key w res ->
  onCached (settings_of options) res = Raises e ->
  exists w',
    cache_function options (Factory run) w = (Pending, w') /\
    In (EvUnhandled e) (trace w') /\
    invocations (trace w') = invocations (trace w) /\
    store w' = store w.
Proof.
  intros Hhit Hhook. rewrite (cache_function_hit _ _ _ _ _ Hhit), Hhook.
  eexists. split; [reflexivity |]. cbn [trace store].
  split; [rewrite in_app_iff; simpl; auto |].
  unfold invocations. rewrite count_app. unfold count. simpl.
  split; [lia | reflexivity].
Qed.

(** X9 at a store holding ['Y'] under ['k'] and an [onCached] that
    throws. *)
Lemma X9_witness :
  exists w',
    cache_function throwing_onCached_options (Factory always_fulfils) cached_world
      = (Pending, w') /\
    In (EvUnhandled (VError "bad hook")) (trace w') /\
    invocations (trace w') = invocations (trace cached_world) /\
    store w' = store cached_world.
Proof.
  apply (X9_throwing_onCached_leaves_the_call_pending
           throwing_onCached_options always_fulfils "k" cached_world
           (VStr "Y") (VError "bad hook")).
  - split; [| reflexivity]. repeat split. discriminate.
  - reflexivity.
Defined.

(** X10.  A worker that throws instead of returning a promise: on the
    first invocation the exception leaves the promise executor and the
    call rejects with it; on a later invocation, run from a timer, nothing
    catches it and the call is left pending.  Either way nothing is
    written to the store and no further attempt is made. *)
Theorem X10_worker_exception_rejects_only_on_first_invocation
  options run key w (k : nat) e :
  misses options key w ->
  (forall i, (i < k)%nat -> goes_round (settings_of options) run i) ->
  run k = Throws e ->
  exists w',
    cache_function options (Factory run) w =
      (if (k =? 0)%nat then Rejected e else Pending, w') /\
    invocations (trace w') = (invocations (trace w) + k + 1)%nat /\
    count is_set (trace w') = count is_set (trace w) /\
    store w' = store w.
Proof.
  intros Hmiss Hround Hrun.
  destruct (cache_function_rounds options run key w k Hmiss Hround)
    as (t & Heq & Hw & _ & Hs & _).
  rewrite Heq, tryResolve_unfold_body. unfold tryResolve_body. rewrite Hrun.
  destruct k as [| k].
  - eexists. split; [reflexivity |]. cbn [emit trace store].
    unfold invocations in *. rewrite !count_app, Hw, Hs.
    unfold count. simpl. repeat split; lia.
  - replace (Z.of_nat (S k) =? 0)%Z with false by (symmetry; apply Z.eqb_neq; lia).
    eexists. split; [reflexivity |]. cbn [emit trace store].
    unfold invocations in *. rewrite !count_app, Hw, Hs.
    unfold count. simpl. repeat split; lia.
Qed.

(** X10 for a worker that throws at once, with retries configured. *)
Lemma X10_witness :
  exists w',
    cache_function (retry_options 2) (Factory throws_at_once) empty_world =
      (if (0 =? 0)%nat then Rejected (VError "sync") else Pending, w') /\
    invocations (trace w') = (invocations (trace empty_world) + 0 + 1)%nat /\
    count is_set (trace w') = count is_set (trace empty_world) /\
    store w' = store empty_world.
Proof.
  apply (X10_worker_exception_rejects_only_on_first_invocation
           (retry_options 2) throws_at_once "k" empty_world 0 (VError "sync")).
  - exists (VStr "!!!UNKNOWN!!!"). repeat split. discriminate.
  - intros i Hi. lia.
  - reflexivity.
Defined.

(** X11.  The sentinel is compared with [!==], so NaN cannot serve as
    one: with [invalidStore] set to NaN an absent entry is not recognised
    as a miss; the call resolves with NaN (with [onCached] leaving it
    alone) and the worker is never invoked. *)
Theorem X11_NaN_sentinel_never_detects_a_miss options run key w :
  valid options key ->
  truthy (enabled (settings_of options)) = true ->
  healthy w ->
  invalidStore (settings_of options) = VNum NaN ->
  store w !! key = None ->
  onCached (settings_of options) (VNum NaN) = Returns VUndefined ->
  exists w',
    cache_function options (Factory run) w = (Resolved (VNum NaN), w') /\
    invocations (trace w') = invocations (trace w) /\
    store w' = store w.
Proof.
  intros [Hid Hkey] Hen Hw Hnan Habsent Hhook.
  rewrite (cache_function_hit options run key w (VNum NaN)).
  - rewrite Hhook. simpl strict_neq. cbv iota.
    eexists. split; [reflexivity |]. cbn [trace store].
    unfold invocations. rewrite count_app. unfold count. simpl.
    split; [lia | reflexivity].
  - split; [| rewrite Hnan; reflexivity].
    split; [exact Hw |]. split; [exact Hid |]. split; [exact Hkey |].
    split; [exact Hen |].
    unfold cache_get. unfold Entry in *. rewrite Habsent, Hnan. reflexivity.
Qed.

(** X11 at [{id: 'k', invalidStore: NaN}] on an empty store. *)
Lemma X11_witness :
  exists w',
    cache_function nan_options (Factory always_fulfils) empty_world
      = (Resolved (VNum NaN), w') /\
    invocations (trace w') = invocations (trace empty_world) /\
    store w' = store empty_world.
Proof.
  apply (X11_NaN_sentinel_never_detects_a_miss
           nan_options always_fulfils "k" empty_world).
  - split; [reflexivity | discriminate].
  - reflexivity.
  - intros n. reflexivity.
  - reflexivity.
  - reflexivity.
  - reflexivity.
Defined.

(** One round with its events spelled out. *)
Lemma body_round_of s run key i w :
  goes_round s run i ->
  tryResolve_body s run key (Z.of_nat i) i w =
  Reschedule (Z.of_nat i + 1)
    (mkWorld (store w) (trace w ++ round_of s run i) (fault w)).
Proof.
  intros (Hrej & Hle & e & d & Hrun & Hhook & Hdelay & Hfin).
  unfold round_of, tryResolve_body, on_failure.
  rewrite Hrun, Hrej, retry_guard_holds.
  destruct (Z.gtb_spec (Z.of_nat i + 1) (retry s)) as [Hgt | _]; [lia |].
  rewrite Hhook. simpl strict_neq. cbv iota.
  rewrite Hdelay, Hfin. simpl negb. cbv iota.
  unfold emit, round. simpl. repeat rewrite <- app_assoc. reflexivity.
Qed.

Lemma tryResolve_schedule s run key k : forall w,
  (forall i, (i < k)%nat -> goes_round s run i) ->
  tryResolve s run key 0 0%nat w =
  tryResolve s run key (Z.of_nat k) k
    (mkWorld (store w) (trace w ++ schedule s run k) (fault w)).
Proof.
  induction k as [| k IH]; intros w Hround.
  - simpl. rewrite app_nil_r. destruct w. reflexivity.
  - rewrite IH by (intros i Hi; apply Hround; lia).
    rewrite tryResolve_unfold_body, body_round_of by (apply Hround; lia).
    replace (Z.of_nat k + 1) with (Z.of_nat (S k)) by lia.
    cbn [store trace fault schedule]. rewrite <- app_assoc. reflexivity.
Qed.

(** X12.  The attempts of a call are strictly sequential.  When the
    retries are exhausted the call has done exactly this, in this order:
    one read of the store; then for each round [i = 0 .. r-1] the worker,
    [onRetry(e_i, i+1)] and a timer with the delay computed for attempt
    [i+1] (so hooks and delay function see the attempts numbered from 1);
    then the final invocation of the worker. *)
Theorem X12_exhausted_call_runs_rounds_in_order
  options run key w (r : nat) e :
  misses options key w ->
  retry (settings_of options) = Z.of_nat r ->
  (forall i, (i < r)%nat -> goes_round (settings_of options) run i) ->
  rejectAs (settings_of options) = None ->
  run r = Rejects e ->
  exists w',
    cache_function options (Factory run) w = (Rejected e, w') /\
    trace w' =
      (trace w ++ [EvGet key (invalidStore (settings_of options))] ++
       schedule (settings_of options) run r ++ [EvWorker r])%list.
Proof.
  intros Hmiss Hretry Hround Hrej Hrun.
  rewrite (cache_function_miss _ _ _ _ Hmiss).
  rewrite (tryResolve_schedule _ _ _ r) by exact Hround.
  rewrite (tryResolve_exhausted _ _ _ _ _ _ e) by (try assumption; lia).
  eexists. split; [reflexivity |]. unfold emit. cbn [trace].
  rewrite <- !app_assoc. reflexivity.
Qed.

(** X12 at [{id: 'k', retry: 3, retryDelay: attempt => 100 * attempt}]
    with a worker whose [n]-th call rejects with [n]: delays of 100, 200
    and 300 between the four invocations. *)
Lemma X12_witness :
  exists w',
    cache_function backoff_options (Factory always_fails) empty_world
      = (Rejected (VNum (Fin 3)), w') /\
    trace w' =
      [EvGet "k" (VStr "!!!UNKNOWN!!!");
       EvWorker 0; EvOnRetry (VNum (Fin 0)) 1; EvTimer (Fin 100);
       EvWorker 1; EvOnRetry (VNum (Fin 1)) 2; EvTimer (Fin 200);
       EvWorker 2; EvOnRetry (VNum (Fin 2)) 3; EvTimer (Fin 300);
       EvWorker 3].
Proof.
  apply (X12_exhausted_call_runs_rounds_in_order
           backoff_options always_fails "k" empty_world 3 (VNum (Fin 3))).
  - exists (VStr "!!!UNKNOWN!!!"). repeat split. discriminate.
  - reflexivity.
  - intros i Hi. split; [reflexivity |]. split; [simpl; lia |].
    exists (VNum (Fin (Z.of_nat i))), (Fin (100 * (Z.of_nat i + 1))).
    repeat split.
  - reflexivity.
  - reflexivity.
Defined.

(** X13.  Validation comes first and is synchronous: a call without an
    id (undefined or empty), or whose worker is a started promise or not
    a function, throws at once; neither the store nor the worker is
    touched, whatever the other options, and a missing id is what is
    reported when both are wrong. *)
Theorem X13_invalid_call_throws_before_anything_happens options worker w :
  id_missing (id (settings_of options)) = true \/
  worker = StartedPromise \/ worker = NotAFunction ->
  exists e,
    cache_function options worker w = (ThrownSync e, w) /\
    (id_missing (id (settings_of options)) = true -> e = no_id) /\
    (id_missing (id (settings_of options)) = false ->
     e = match worker with
         | StartedPromise => not_a_factory
         | _ => not_a_function
         end).
Proof.
  intros Hbad. unfold cache_function.
  destruct (id (settings_of options)) as [key |] eqn:Hid.
  - destruct (id_missing (Some key)) eqn:Hmissing.
    + exists no_id. repeat split. discriminate.
    + destruct Hbad as [Hbad | [-> | ->]]; [discriminate | |];
        eexists; repeat split; discriminate.
  - exists no_id. repeat split. discriminate.
Qed.

(** X13 for an empty id together with a worker that is a started
    promise. *)
Lemma X13_witness :
  exists e,
    cache_function (BareId "") StartedPromise empty_world
      = (ThrownSync e, empty_world) /\
    (id_missing (id (settings_of (BareId ""))) = true -> e = no_id) /\
    (id_missing (id (settings_of (BareId ""))) = false ->
     e = match StartedPromise with
         | StartedPromise => not_a_factory
         | _ => not_a_function
         end).
Proof.
  apply (X13_invalid_call_throws_before_anything_happens
           (BareId "") StartedPromise empty_world).
  left. reflexivity.
Defined.

End MemoMore.

(** ** Further properties of the file cache middleware *)

Module FileCacheMore.
Import FileCache FileScenarios FileViews FileCacheFacts.

Ltac tidy_pairs :=
  repeat match goal with
    | H : (_, _) = (_, _) |- _ => injection H as ? ?
    | H : Returns _ = Raises _ |- _ => discriminate H
    | H : Raises _ = Returns _ |- _ => discriminate H
    | H : Returns _ = Returns _ |- _ => injection H as ?
    | H : Raises _ = Raises _ |- _ => injection H as ?
    end; subst.

(** A hit with the default [onCachedFile]. *)
Lemma cacheFile_hit options req r en p :
  resolve_setting (enabled (settings_of options)) req = Fulfils en ->
  truthy en = true ->
  resolve_setting (path (settings_of options)) req = Fulfils p ->
  is_Some (files r !! p) ->
  opt_onCachedFile options = None ->
  cacheFile options req r =
  (Returns tt, with_ r None (files r) (out r ++ [EvAccess p; EvSendFile p])).
Proof.
  intros Hen Htruthy Hpath Hfile Hhook.
  unfold cacheFile, andThen, orCatch, set_cachePath, resolve_both.
  rewrite Hen, Hpath. unfold fulfil. rewrite Htruthy. cbn [negb].
  unfold fs_exists. cbn [with_ files cachePath out].
  rewrite bool_decide_eq_true_2 by exact Hfile.
  unfold settings_of. rewrite Hhook. cbn [default onCachedFile].
  unfold emit. cbn [with_ files cachePath out mkdir_fault write_fault].
  rewrite <- !app_assoc. reflexivity.
Qed.



(** X15.  On a miss the order is: existence check, [req.cachePath] set,
    directory made, [onCreateFile] run on the request in that state, and
    only when the hook has fulfilled the next handler. *)
Theorem X15_miss_stages_path_before_hook_and_next
  options req r en p r2 :
  resolve_setting (enabled (settings_of options)) req = Fulfils en ->
  truthy en = true ->
  resolve_setting (path (settings_of options)) req = Fulfils p ->
  files r !! p = None ->
  mkdir_fault r p = None ->
  onCreateFile (settings_of options) p
    (with_ r (Some p) (files r) (out r ++ [EvAccess p; EvMkdirParent p]))
    = (Returns tt, r2) ->
  cacheFile options req r =
  (Returns tt, with_ r2 (cachePath r2) (files r2) (out r2 ++ [EvNext])).
Proof.
  intros Hen Htruthy Hpath Hfile Hdisk Hhook.
  unfold cacheFile, andThen, orCatch, set_cachePath, resolve_both.
  rewrite Hen, Hpath. unfold fulfil. rewrite Htruthy. cbn [negb].
  unfold fs_exists, with_ in *. cbn [files cachePath out]. rewrite Hfile.
  rewrite bool_decide_eq_false_2 by (intros [x Hx]; discriminate).
  unfold fs_mkdir_parent, emit, with_.
  cbn [files cachePath out mkdir_fault write_fault].
  rewrite Hdisk. cbn [files cachePath out mkdir_fault write_fault].
  rewrite <- !app_assoc. cbn [app]. rewrite Hhook. reflexivity.
Qed.

(** X15 at [{path: '/cache/7'}] on an empty disk, with the default
    hook. *)
Lemma X15_witness :
  cacheFile cache7_options get7 empty_disk =
  (Returns tt,
   with_ empty_disk (Some "/cache/7") ∅
     ([EvAccess "/cache/7"; EvMkdirParent "/cache/7"] ++ [EvNext])).
Proof.
  apply (X15_miss_stages_path_before_hook_and_next
           cache7_options get7 empty_disk (VBool true) "/cache/7"
           (with_ empty_disk (Some "/cache/7") ∅
              [EvAccess "/cache/7"; EvMkdirParent "/cache/7"]));
    reflexivity.
Defined.

(** X16.  When the path resolver fails (throws or rejects), the request
    ends in [res.sendError] with that error, also when [enabled] resolved
    to false: the switch is looked at only once both settings have
    resolved.  No existence check is made and the next handler is not
    invoked, unless the error is the string ['NEXT'], which the final
    catch takes for its own skip signal. *)
Theorem X16_failing_path_resolver_is_reported options req r en e :
  resolve_setting (enabled (settings_of options)) req = Fulfils en ->
  resolve_setting (path (settings_of options)) req = Throws e \/
  resolve_setting (path (settings_of options)) req = Rejects e ->
  cacheFile options req r =
  (Returns tt, with_ r None (files r) (out r ++ [caught e])).
Proof.
  intros Hen Hpath.
  unfold cacheFile, andThen, orCatch, set_cachePath, resolve_both, caught.
  rewrite Hen. destruct Hpath as [-> | ->]; unfold fail;
    destruct (strict_eq e skip_signal); reflexivity.
Qed.

(** X16 at [{enabled: false}] without a path: the default path function
    throws, and the request is answered with that error although caching
    is switched off. *)
Lemma X16_witness :
  cacheFile disabled_without_path get7 empty_disk =
  (Returns tt, with_ empty_disk None (files empty_disk)
                 (out empty_disk ++ [EvSendError no_path])).
Proof.
  apply (X16_failing_path_resolver_is_reported
           disabled_without_path get7 empty_disk (VBool false) no_path).
  - reflexivity.
  - left. reflexivity.
Defined.

(** X17.  When the directory cannot be made on a miss, the request ends
    in [res.sendError] with the disk's error; [onCreateFile] and the next
    handler are not run, but [req.cachePath] stays set to the path. *)
Theorem X17_mkdir_failure_is_reported_with_path_left_staged
  options req r en p e :
  resolve_setting (enabled (settings_of options)) req = Fulfils en ->
  truthy en = true ->
  resolve_setting (path (settings_of options)) req = Fulfils p ->
  files r !! p = None ->
  mkdir_fault r p = Some e ->
  cacheFile options req r =
  (Returns tt, with_ r (Some p) (files r) (out r ++ [EvAccess p; caught e])).
Proof.
  intros Hen Htruthy Hpath Hfile Hdisk.
  unfold cacheFile, andThen, orCatch, set_cachePath, resolve_both, caught.
  rewrite Hen, Hpath. unfold fulfil. rewrite Htruthy. cbn [negb].
  unfold fs_exists, with_. cbn [files cachePath out]. rewrite Hfile.
  rewrite bool_decide_eq_false_2 by (intros [x Hx]; discriminate).
  unfold fs_mkdir_parent. cbn [files cachePath out mkdir_fault write_fault].
  rewrite Hdisk. unfold emit, with_.
  destruct (strict_eq e skip_signal);
    cbn [files cachePath out mkdir_fault write_fault];
    rewrite <- !app_assoc; reflexivity.
Qed.

(** X17 at [{path: '/cache/7'}] on a disk where no directory can be
    made. *)
Lemma X17_witness :
  cacheFile cache7_options get7 read_only_disk =
  (Returns tt,
   with_ read_only_disk (Some "/cache/7") (files read_only_disk)
     (out read_only_disk ++ [EvAccess "/cache/7"; EvSendError (VError "EACCES")])).
Proof.
  apply (X17_mkdir_failure_is_reported_with_path_left_staged
           cache7_options get7 read_only_disk (VBool true) "/cache/7"
           (VError "EACCES"));
    reflexivity.
Defined.

(** X18.  With the default hooks the middleware takes exactly one closing
    action per request, whatever the resolvers and the disk do: it hands
    over to the next handler, or reports an error, or serves the cached
    file.  Its own promise always fulfils, and it never changes a file. *)
Theorem X18_one_closing_action_per_request options req r :
  opt_onCachedFile options = None ->
  opt_onCreateFile options = None ->
  exists cp evs,
    cacheFile options req r = (Returns tt, with_ r cp (files r) (out r ++ evs)) /\
    count is_terminal evs = 1%nat.
Proof.
  intros Hcached Hcreate.
  unfold cacheFile, andThen, orCatch, set_cachePath, resolve_both, settings_of.
  rewrite Hcached, Hcreate. cbn [default path enabled onCachedFile onCreateFile].
  unfold fs_exists, fs_mkdir_parent, emit, fulfil, fail, with_.
  repeat (case_match; tidy_pairs);
    cbn [files cachePath out mkdir_fault write_fault] in *; tidy_pairs;
    cbn [files cachePath out mkdir_fault write_fault];
    rewrite <- ?app_assoc; eexists; eexists; (split; [reflexivity |]);
    reflexivity.
Qed.

(** X18 at [{path: '/cache/7'}] on an empty disk. *)
Lemma X18_witness :
  exists cp evs,
    cacheFile cache7_options get7 empty_disk
      = (Returns tt, with_ empty_disk cp (files empty_disk) (out empty_disk ++ evs)) /\
    count is_terminal evs = 1%nat.
Proof.
  apply (X18_one_closing_action_per_request cache7_options get7 empty_disk);
    reflexivity.
Defined.










(** X22.  For string content the write comes before the send: when the
    disk refuses the write at the staged path, the call rejects with the
    disk's error and the content is not sent to the client either. *)
Theorem X22_refused_write_keeps_content_from_being_sent
  settings str opts r p e :
  cachePath r = Some p ->
  setting_truthy (enabled settings) = true ->
  write_fault r p = Some e ->
  exists r',
    cacheSend settings (CValue (VStr str)) opts r = (Raises e, r') /\
    count is_send (out r') = count is_send (out r) /\
    files r' = files r.
Proof.
  intros Hpath Hen Hdisk.
  destruct (type_link (default VNull (so_type opts)) r) as (evs & Hlink & Hs & _).
  eexists. split.
  - unfold cacheSend, andThen at 1. rewrite Hlink.
    unfold ifC, andThen, liftC, instanceof, Stream_Readable.
    rewrite Hen.
    destruct (truthy (default (VBool _) _));
      cbn [is_a typeof_string data_of]; cbn beta iota;
      unfold fs_writeFile; cbn [with_ cachePath write_fault];
      rewrite Hpath, Hdisk; reflexivity.
  - cbn [with_ out files]. rewrite count_out_app, Hs. split; [lia | reflexivity].
Qed.

(** X22 on a full disk with ['/cache/7'] staged. *)
Lemma X22_witness :
  exists r',
    cacheSend (settings_of cache7_options) (CValue (VStr "body")) plain_send full_disk
      = (Raises (VError "ENOSPC"), r') /\
    count is_send (out r') = count is_send (out full_disk) /\
    files r' = files full_disk.
Proof.
  apply (X22_refused_write_keeps_content_from_being_sent
           (settings_of cache7_options) "body" plain_send full_disk
           "/cache/7" (VError "ENOSPC"));
    reflexivity.
Defined.

(** X23.  The per-call [enabled] option only chooses between the two
    stream branches: for content that is not a stream (strings, buffers,
    anything else) the call does the same whatever that option is. *)
Theorem X23_per_call_enabled_matters_for_streams_only
  settings content en en' ty r :
  is_a content ReadableClass = false ->
  cacheSend settings content (mkSendOptions en ty) r =
  cacheSend settings content (mkSendOptions en' ty) r.
Proof.
  intros Hshape. unfold cacheSend, ifC, andThen, liftC, instanceof, Stream_Readable.
  cbn [so_enabled so_type]. rewrite Hshape.
  destruct ((if truthy (default VNull ty)
             then emit (EvType (default VNull ty)) else fulfil tt) r)
    as [[[] | e] r1]; [| reflexivity].
  destruct (truthy (default (VBool _) en)), (truthy (default (VBool _) en'));
    reflexivity.
Qed.

(** X23 for a string on the staged path, per-call [enabled] false against
    left out: both write and send. *)
Lemma X23_witness :
  cacheSend (settings_of cache7_options) (CValue (VStr "body"))
    (mkSendOptions (Some (VBool false)) None) staged =
  cacheSend (settings_of cache7_options) (CValue (VStr "body"))
    (mkSendOptions None None) staged.
Proof.
  apply (X23_per_call_enabled_matters_for_streams_only
           (settings_of cache7_options) (CValue (VStr "body"))
           (Some (VBool false)) None None staged).
  reflexivity.
Defined.

(** X24.  With the middleware-level [enabled] statically falsy, string
    content is sent and nothing is written, whatever [req.cachePath] and
    the per-call options are. *)
Theorem X24_statically_disabled_string_is_only_sent settings str opts r :
  setting_truthy (enabled settings) = false ->
  exists r',
    cacheSend settings (CValue (VStr str)) opts r = (Returns tt, r') /\
    files r' = files r /\
    count is_write (out r') = count is_write (out r) /\
    last (out r') = Some (EvSend (CValue (VStr str))).
Proof.
  intros Hen.
  destruct (type_link (default VNull (so_type opts)) r) as (evs & Hlink & _ & Hw).
  eexists. split.
  - unfold cacheSend, andThen at 1. rewrite Hlink.
    unfold ifC, andThen, liftC, instanceof, Stream_Readable.
    rewrite Hen.
    destruct (truthy (default (VBool _) _));
      cbn [is_a typeof_string data_of]; cbn beta iota; reflexivity.
  - cbn [with_ out files]. split; [reflexivity |].
    rewrite !count_out_app, Hw.
    split; [unfold count; simpl; lia | apply last_snoc].
Qed.

(** X24 at [{path: '/cache/7', enabled: false}] with a path staged all
    the same and the per-call [enabled] true. *)
Lemma X24_witness :
  exists r',
    cacheSend (settings_of switched_off) (CValue (VStr "body"))
      (mkSendOptions (Some (VBool true)) None) staged = (Returns tt, r') /\
    files r' = files staged /\
    count is_write (out r') = count is_write (out staged) /\
    last (out r') = Some (EvSend (CValue (VStr "body"))).
Proof.
  apply (X24_statically_disabled_string_is_only_sent
           (settings_of switched_off) "body"
           (mkSendOptions (Some (VBool true)) None) staged).
  reflexivity.
Defined.

(** X25.  Round trip through the disk: a request that misses, whose
    handler answers with [res.cacheSend] of a string, leaves that string
    at the path; the next request for the path is served the file and
    its downstream handler does not run. *)
Theorem X25_string_sent_on_a_miss_is_served_on_the_next_request
  options req req' r en p str opts :
  resolve_setting (enabled (settings_of options)) req = Fulfils en ->
  resolve_setting (enabled (settings_of options)) req' = Fulfils en ->
  truthy en = true ->
  resolve_setting (path (settings_of options)) req = Fulfils p ->
  resolve_setting (path (settings_of options)) req' = Fulfils p ->
  files r !! p = None ->
  mkdir_fault r p = None ->
  write_fault r p = None ->
  opt_onCachedFile options = None ->
  opt_onCreateFile options = None ->
  exists r1 r2 r3,
    cacheFile options req r = (Returns tt, r1) /\
    cacheSend (settings_of options) (CValue (VStr str)) opts r1 = (Returns tt, r2) /\
    cacheFile options req' r2 = (Returns tt, r3) /\
    files r3 !! p = Some (Text str) /\
    out r3 = (out r2 ++ [EvAccess p; EvSendFile p])%list.
Proof.
  intros Hen Hen' Htruthy Hpath Hpath' Hfile Hmk Hwr Hcached Hcreate.
  rewrite (cacheFile_miss options req r en p) by assumption.
  destruct (cacheSend_string_staged (settings_of options) str opts
              (with_ r (Some p) (files r)
                 (out r ++ [EvAccess p; EvMkdirParent p; EvNext])) p)
    as (r2 & Hsend & Hfiles & Hlast); [reflexivity | exact Hwr | |].
  { destruct (enabled (settings_of options)) as [v | f]; [| reflexivity].
    cbn [resolve_setting] in Hen. injection Hen as ->. exact Htruthy. }
  eexists. exists r2. eexists. split; [reflexivity |].
  split; [exact Hsend |].
  rewrite (cacheFile_hit options req' r2 en p); try assumption.
  - split; [reflexivity |]. cbn [with_ files out]. rewrite Hfiles.
    split; [apply lookup_insert_eq | reflexivity].
  - rewrite Hfiles, lookup_insert_eq. eexists. reflexivity.
Qed.

(** X25 at [{path: '/cache/7'}] on an empty disk with the body
    ["body"]. *)
Lemma X25_witness :
  exists r1 r2 r3,
    cacheFile cache7_options get7 empty_disk = (Returns tt, r1) /\
    cacheSend (settings_of cache7_options) (CValue (VStr "body")) plain_send r1
      = (Returns tt, r2) /\
    cacheFile cache7_options get7 r2 = (Returns tt, r3) /\
    files r3 !! "/cache/7" = Some (Text "body") /\
    out r3 = (out r2 ++ [EvAccess "/cache/7"; EvSendFile "/cache/7"])%list.
Proof.
  apply (X25_string_sent_on_a_miss_is_served_on_the_next_request
           cache7_options get7 get7 empty_disk (VBool true) "/cache/7"
           "body" plain_send);
    reflexivity.
Defined.

End FileCacheMore.

(** ** Properties of the cache instances and of the wiring *)

Module CacheInitFacts.
Import CacheInit Bootstrap.

Lemma lookup_assign_eq k i cs : lookup k (assign k i cs) = Some i.
Proof.
  induction cs as [| [k' i'] cs IH]; simpl.
  - rewrite String.eqb_refl. reflexivity.
  - destruct (String.eqb k' k) eqn:Hk; simpl; rewrite ?Hk, ?String.eqb_refl;
      [reflexivity | exact IH].
Qed.

Lemma lookup_assign_ne k k' i cs :
  k <> k' -> lookup k' (assign k i cs) = lookup k' cs.
Proof.
  intros Hne. induction cs as [| [k0 i0] cs IH]; simpl.
  - apply String.eqb_neq in Hne. rewrite Hne. reflexivity.
  - destruct (String.eqb k0 k) eqn:Hk; simpl.
    + apply String.eqb_eq in Hk. subst k0.
      apply String.eqb_neq in Hne. rewrite Hne. reflexivity.
    + rewrite IH. reflexivity.
Qed.

(** When every module loads, each configured id ends up with its ready
    instance and the other keys are as before. *)
Lemma start_modules_all_load boot ids : forall cs,
  (forall id, In id ids -> boot id = Fulfils tt) ->
  exists cs',
    start_modules boot ids cs = (Fulfils tt, cs') /\
    (forall id, In id ids -> lookup id cs' = Some (ready (new_Cache id))) /\
    (forall id, ~ In id ids -> lookup id cs' = lookup id cs).
Proof.
  induction ids as [| a rest IH]; intros cs Hload.
  - exists cs. simpl. split; [reflexivity |]. split; [intros id [] | reflexivity].
  - simpl. rewrite (Hload a) by (left; reflexivity).
    destruct (IH (assign a (ready (new_Cache a)) (assign a (new_Cache a) cs)))
      as (cs' & Heq & Hin & Hout); [intros id Hid; apply Hload; right; exact Hid |].
    exists cs'. split; [exact Heq |]. split.
    + intros id [<- | Hid]; [| apply Hin; exact Hid].
      destruct (in_dec string_dec a rest) as [Ha | Ha]; [apply Hin; exact Ha |].
      rewrite Hout by exact Ha. apply lookup_assign_eq.
    + intros id Hid. rewrite Hout by (intros H; apply Hid; right; exact H).
      rewrite !lookup_assign_ne by (intros ->; apply Hid; left; reflexivity).
      reflexivity.
Qed.

(** Where the outcome of the loading comes from. *)
Lemma start_modules_origin boot ids : forall cs,
  match fst (start_modules boot ids cs) with
  | Fulfils _ => forall id, In id ids -> exists u, boot id = Fulfils u
  | Rejects e => exists id, In id ids /\ boot id = Rejects e
  | Throws e => exists id, In id ids /\ boot id = Throws e
  end.
Proof.
  induction ids as [| a rest IH]; intros cs; simpl.
  - intros id [].
  - destruct (boot a) as [u | e | e] eqn:Ha.
    + specialize (IH (assign a (ready (new_Cache a)) (assign a (new_Cache a) cs))).
      destruct (start_modules boot rest _) as [[u' | e' | e'] cs']; simpl in *.
      * intros id [<- | Hid]; [exists u; exact Ha | apply IH; exact Hid].
      * destruct IH as (id & Hid & Hb). exists id. auto.
      * destruct IH as (id & Hid & Hb). exists id. auto.
    + specialize (IH (assign a (new_Cache a) cs)).
      destruct (start_modules boot rest _) as [[u' | e' | e'] cs']; simpl in *.
      * exists a. auto.
      * exists a. auto.
      * destruct IH as (id & Hid & Hb). exists id. auto.
    + simpl. exists a. auto.
Qed.

Lemma cache_init_all_load boot m rest app0 :
  (forall id, In id (m :: rest) -> boot id = Fulfils tt) ->
  exists app',
    cache_init boot (m :: rest) app0 = (Returns tt, app') /\
    cache app' = Some (mkInstance [m] false (Some m)).
Proof.
  intros Hload.
  destruct (start_modules_all_load boot (m :: rest) [] Hload)
    as (cs' & Heq & Hin & _).
  unfold cache_init. rewrite Heq.
  rewrite (Hin m) by (left; reflexivity). cbn [ready new_Cache activeModule head
    inst_modules inst_init].
  eexists. split; reflexivity.
Qed.

(** X26.  When every configured module loads, [app.caches] holds one
    instance per configured id and nothing else, each built for its own
    module alone with [init] off and with that module active, and
    [app.cache] is the instance of the first configured module. *)
Theorem X26_one_instance_per_module_and_first_is_primary
  boot m rest app0 :
  (forall id, In id (m :: rest) -> boot id = Fulfils tt) ->
  exists app',
    cache_init boot (m :: rest) app0 = (Returns tt, app') /\
    cache app' = Some (mkInstance [m] false (Some m)) /\
    (forall id, In id (m :: rest) ->
       lookup id (caches app') = Some (mkInstance [id] false (Some id))) /\
    (forall id, ~ In id (m :: rest) -> lookup id (caches app') = None).
Proof.
  intros Hload.
  destruct (start_modules_all_load boot (m :: rest) [] Hload)
    as (cs' & Heq & Hin & Hout).
  unfold cache_init. rewrite Heq.
  rewrite (Hin m) by (left; reflexivity). cbn [ready new_Cache activeModule head
    inst_modules inst_init].
  eexists. split; [reflexivity |]. cbn [cache caches].
  split; [reflexivity |]. split; [exact Hin |].
  intros id Hid. rewrite Hout by exact Hid. reflexivity.
Qed.

(** X26 for the modules [redis; memory; redis], all loading. *)
Lemma X26_witness :
  exists app',
    cache_init all_load ("redis" :: ["memory"; "redis"]) blank_app
      = (Returns tt, app') /\
    cache app' = Some (mkInstance ["redis"] false (Some "redis")) /\
    (forall id, In id ("redis" :: ["memory"; "redis"]) ->
       lookup id (caches app') = Some (mkInstance [id] false (Some id))) /\
    (forall id, ~ In id ("redis" :: ["memory"; "redis"]) ->
       lookup id (caches app') = None).
Proof.
  apply (X26_one_instance_per_module_and_first_is_primary
           all_load "redis" ["memory"; "redis"] blank_app).
  intros id Hid. reflexivity.
Defined.

(** X27.  When the [init()] of any configured module fails, the start of
    the backend rejects with the error of a failing module; [app.cache]
    is not assigned, nothing is logged, and no listener, route cache
    middleware or exit handler is put in place, whatever [setup] would
    have done. *)
Theorem X27_failing_module_stops_the_start boot modules setup b id e :
  In id modules ->
  boot id = Rejects e \/ boot id = Throws e ->
  exists e' b',
    start boot modules setup b = (Raises e', b') /\
    (exists id', In id' modules /\
                 (boot id' = Rejects e' \/ boot id' = Throws e')) /\
    cache (app b') = cache (app b) /\
    logged (app b') = logged (app b) /\
    listeners b' = listeners b /\
    route_cache b' = route_cache b /\
    exit_hook b' = exit_hook b.
Proof.
  intros Hid Hfail. unfold start, cache_init.
  pose proof (start_modules_origin boot modules []) as Horigin.
  destruct (start_modules boot modules []) as [[u | e' | e'] cs]; simpl in Horigin.
  - destruct (Horigin id Hid) as [u' Hu'].
    destruct Hfail as [Hfail | Hfail]; rewrite Hfail in Hu'; discriminate.
  - destruct Horigin as (id' & Hid' & Hb).
    exists e'. eexists. split; [reflexivity |].
    split; [exists id'; auto |]. repeat split.
  - destruct Horigin as (id' & Hid' & Hb).
    exists e'. eexists. split; [reflexivity |].
    split; [exists id'; auto |]. repeat split.
Qed.

(** X27 for the modules [memory; redis] with redis unreachable. *)
Lemma X27_witness :
  exists e' b',
    start redis_down ["memory"; "redis"] (Returns tt) blank_backend
      = (Raises e', b') /\
    (exists id', In id' ["memory"; "redis"] /\
                 (redis_down id' = Rejects e' \/ redis_down id' = Throws e')) /\
    cache (app b') = cache (app blank_backend) /\
    logged (app b') = logged (app blank_backend) /\
    listeners b' = listeners blank_backend /\
    route_cache b' = route_cache blank_backend /\
    exit_hook b' = exit_hook blank_backend.
Proof.
  apply (X27_failing_module_stops_the_start
           redis_down ["memory"; "redis"] (Returns tt) blank_backend
           "redis" (VError "ECONNREFUSED")).
  - right. left. reflexivity.
  - left. reflexivity.
Defined.

(** X28.  The start of the backend fulfils only when at least one
    module is configured, every configured module loaded and [setup]
    fulfilled; [app.cache] is then the instance of the first module and
    the middleware and the exit handler are in place.  In particular an
    empty list of modules makes the start fail although nothing failed to
    load: [app.cache] is [app.caches[undefined]] and the log line reads
    [app.cache.activeModule]. *)
Theorem X28_start_fulfils_only_when_everything_did boot modules setup b b' :
  start boot modules setup b = (Returns tt, b') ->
  (exists m, head modules = Some m /\
             cache (app b') = Some (mkInstance [m] false (Some m))) /\
  (forall id, In id modules -> boot id = Fulfils tt) /\
  setup = Returns tt /\
  route_cache b' = true /\
  exit_hook b' = true.
Proof.
  intros Hstart.
  pose proof (start_modules_origin boot modules []) as Horigin.
  destruct modules as [| m rest].
  - unfold start, cache_init in Hstart. simpl in Hstart. discriminate.
  - assert (Hload : forall id, In id (m :: rest) -> boot id = Fulfils tt).
    { unfold start, cache_init in Hstart.
      destruct (start_modules boot (m :: rest) []) as [[u | e | e] cs];
        [| discriminate | discriminate].
      intros id Hid. destruct (Horigin id Hid) as [[] Hu]. exact Hu. }
    destruct (cache_init_all_load boot m rest (app b) Hload) as (app' & Heq & Hc).
    unfold start in Hstart. rewrite Heq, Hc in Hstart.
    destruct setup as [[] | e]; [| discriminate].
    injection Hstart as <-. cbn [app route_cache exit_hook].
    split; [exists m; split; [reflexivity | exact Hc] |].
    split; [exact Hload |]. repeat split.
Qed.

(** X28 for the modules [memory; redis], all loading, with a [setup]
    that works. *)
Lemma X28_witness :
  (exists m, head ["memory"; "redis"] = Some m /\
             cache (app (snd (start all_load ["memory"; "redis"] (Returns tt)
                                 blank_backend)))
               = Some (mkInstance [m] false (Some m))) /\
  (forall id, In id ["memory"; "redis"] -> all_load id = Fulfils tt) /\
  Returns tt = Returns tt /\
  route_cache (snd (start all_load ["memory"; "redis"] (Returns tt) blank_backend))
    = true /\
  exit_hook (snd (start all_load ["memory"; "redis"] (Returns tt) blank_backend))
    = true.
Proof.
  apply (X28_start_fulfils_only_when_everything_did
           all_load ["memory"; "redis"] (Returns tt) blank_backend).
  reflexivity.
Defined.

(** X29.  When every module loads, the five route cache events are
    hooked on [app.cache] and the route cache middleware is assigned
    before [setup] is known to have worked: a failing [setup] rejects the
    start with its error and leaves both in place, without the exit
    handler; the exit handler is registered, and the start fulfils,
    exactly when [setup] fulfils. *)
Theorem X29_wiring_precedes_setup boot m rest setup b :
  (forall id, In id (m :: rest) -> boot id = Fulfils tt) ->
  exists b',
    start boot (m :: rest) setup b =
      (match setup with Returns _ => Returns tt | Raises e => Raises e end, b') /\
    listeners b' = (listeners b ++ route_events)%list /\
    route_cache b' = true /\
    exit_hook b' = match setup with
                   | Returns _ => true
                   | Raises _ => exit_hook b
                   end.
Proof.
  intros Hload.
  destruct (cache_init_all_load boot m rest (app b) Hload) as (app' & Heq & Hc).
  unfold start. rewrite Heq, Hc.
  destruct setup; eexists; repeat split.
Qed.

(** X29 for the modules [memory; redis], all loading, with a [setup]
    that fails. *)
Lemma X29_witness :
  exists b',
    start all_load ("memory" :: ["redis"]) (Raises (VError "bad config"))
      blank_backend =
      (match Raises (VError "bad config") : Completion unit with
       | Returns _ => Returns tt
       | Raises e => Raises e
       end, b') /\
    listeners b' = (listeners blank_backend ++ route_events)%list /\
    route_cache b' = true /\
    exit_hook b' = match Raises (VError "bad config") : Completion unit with
                   | Returns _ => true
                   | Raises _ => exit_hook blank_backend
                   end.
Proof.
  apply (X29_wiring_precedes_setup
           all_load "memory" ["redis"] (Raises (VError "bad config"))
           blank_backend).
  intros id Hid. reflexivity.
Defined.

End CacheInitFacts.
